(** * krdict usage examples: pagination and console rendering

    A shallow embedding of [src/examples.py]: the pagination loop of
    Example 1, the two console renderers [_display_view_results] and
    [_display_results], and the driver under [__main__].

    Python integers are unbounded, so they are [Z]; strings are byte
    strings (the UTF-8 encoding of the source literals); the objects
    returned by the client library are records whose optional members
    (the ones the source tests with [in]) are [option]s.  Console output
    and client requests are recorded as a trace of events, so that what was
    printed before an exception is still visible. *)

From Stdlib Require Import ZArith List String Ascii Bool Lia DecimalString.
Import ListNotations.
Local Open Scope list_scope.
Local Open Scope Z_scope.
Local Open Scope string_scope.

(** ** Python values *)

(** [str(n)] for an integer. *)
Definition str (n : Z) : string := NilZero.string_of_int (Z.to_int n).

(** [len(l)]. *)
Definition len {A} (l : list A) : Z := Z.of_nat (List.length l).

(** [sep.join(l)]. *)
Definition join (sep : string) (l : list string) : string := String.concat sep l.

(** The newline character of ['\n']. *)
Definition nl : string := String "010"%char EmptyString.

(** Truth value of a string and of a list: non-empty. *)
Definition truthy (s : string) : bool :=
  match s with EmptyString => false | String _ _ => true end.

Definition nonempty {A} (l : list A) : bool :=
  match l with [] => false | _ :: _ => true end.

(** [s * n] for a string. *)
Fixpoint str_mul (s : string) (n : nat) : string :=
  match n with O => EmptyString | S k => s ++ str_mul s k end.

(** The format specification [:02d], for a non-negative integer. *)
Definition fmt_02d (n : Z) : string :=
  if (String.length (str n) <? 2)%nat then "0" ++ str n else str n.

(** The exceptions that occur in this file. *)
Inductive exn :=
| IndexError
| AttributeError (name : string)
| NameError (name : string)
| KRDictException (msg : string)
| RequestException (msg : string).

(** [str(exc)]. *)
Definition str_exn (e : exn) : string :=
  match e with
  | IndexError => "list index out of range"
  | AttributeError name => name
  | NameError name => "name '" ++ name ++ "' is not defined"
  | KRDictException msg => msg
  | RequestException msg => msg
  end.

(** [l[0]]. *)
Definition index0 {A} (l : list A) : exn + A :=
  match l with [] => inl IndexError | x :: _ => inr x end.

(** ** The response objects of the client library *)

Module Translation.
Record t := { word : option string; definition : string }.
End Translation.

Module Example.
Record t := { example : string }.
End Example.

Module Multimedia.
Record t := {
  url : option string;
  content_urls : option (list string);
  type : string }.
End Multimedia.

Module Dfn.
Record t := {
  definition : string;
  translations : list Translation.t;
  example_info : list Example.t;
  multimedia_info : list Multimedia.t }.
End Dfn.

Module OriginalLanguage.
Record t := { original_language : string; language_type : string }.
End OriginalLanguage.

Module Pronunciation.
Record t := { pronunciation : string; url : option string }.
End Pronunciation.

Module WordInfo.
Record t := {
  word : string;
  part_of_speech : string;
  original_language_info : list OriginalLanguage.t;
  pronunciation_info : list Pronunciation.t;
  definition_info : list Dfn.t }.
End WordInfo.

(** An element of [data.results].  Entries of a word or idiom search carry a
    list [definitions]; entries of a definition search carry one
    [definition_info]; the entry of a view query carries [word_info].
    Reading a member that the entry does not have raises. *)
Module Result.
Inductive t :=
| WordEntry (word : string) (origin : option string) (definitions : list Dfn.t)
| DefinitionEntry (word : string) (origin : option string) (definition_info : Dfn.t)
| ViewEntry (word_info : WordInfo.t).

Definition word (r : t) : exn + string :=
  match r with
  | WordEntry w _ _ | DefinitionEntry w _ _ => inr w
  | ViewEntry _ => inl (AttributeError "word")
  end.

(** [None] when ['origin' in result] is false. *)
Definition origin (r : t) : option string :=
  match r with
  | WordEntry _ o _ | DefinitionEntry _ o _ => o
  | ViewEntry _ => None
  end.

Definition definitions (r : t) : exn + list Dfn.t :=
  match r with
  | WordEntry _ _ ds => inr ds
  | _ => inl (AttributeError "definitions")
  end.

Definition definition_info (r : t) : exn + Dfn.t :=
  match r with
  | DefinitionEntry _ _ d => inr d
  | _ => inl (AttributeError "definition_info")
  end.

Definition word_info (r : t) : exn + WordInfo.t :=
  match r with
  | ViewEntry wi => inr wi
  | _ => inl (AttributeError "word_info")
  end.
End Result.

Module Data.
Record t := {
  url : string;
  total_results : Z;
  page : Z;
  per_page : Z;
  results : list Result.t }.
End Data.

Module Response.
Record t := {
  response_type : string;
  (** [isinstance(response, krdict.DefinitionResponse)] *)
  is_DefinitionResponse : bool;
  data : Data.t }.
End Response.

(** ** Effects: a trace of events and an outcome *)

Inductive event :=
| Print (line : string)
| Search (query : string) (page per_page : Z).

Inductive outcome (A : Type) :=
| Return (a : A)
| Raise (e : exn)
| OutOfFuel.
Arguments Return {A} a.
Arguments Raise {A} e.
Arguments OutOfFuel {A}.

Definition io (A : Type) : Type := list event * outcome A.

Definition ret {A} (a : A) : io A := ([], Return a).

Definition bind {A B} (c : io A) (k : A -> io B) : io B :=
  match c with
  | (tr, Return a) => let (tr', o) := k a in (tr ++ tr', o)%list
  | (tr, Raise e) => (tr, Raise e)
  | (tr, OutOfFuel) => (tr, OutOfFuel)
  end.

Notation "x <- c1 ;; c2" := (bind c1 (fun x => c2))
  (at level 61, c1 at next level, right associativity).
Notation "c1 ;; c2" := (bind c1 (fun _ => c2))
  (at level 61, right associativity).

Definition print (line : string) : io unit := ([Print line], Return tt).

Definition lift {A} (r : exn + A) : io A :=
  ([], match r with inl e => Raise e | inr a => Return a end).

(** [while cond: body], cut off after [fuel] passes. *)
Section While.
Context {St : Type} (cond : St -> bool) (body : St -> io St).

Fixpoint while (fuel : nat) (s : St) : io St :=
  if cond s then
    match fuel with
    | O => ([], OutOfFuel)
    | S n => bind (body s) (while n)
    end
  else ret s.

(** The states at the end of each completed pass of the body. *)
Fixpoint passes (fuel : nat) (s : St) : list St :=
  if cond s then
    match fuel with
    | O => []
    | S n =>
        match body s with
        | (_, Return s') => s' :: passes n s'
        | _ => []
        end
    end
  else [].
End While.

(** The pages requested from the client, in order. *)
Fixpoint requested_pages (tr : list event) : list Z :=
  match tr with
  | [] => []
  | Search _ p _ :: tr' => p :: requested_pages tr'
  | Print _ :: tr' => requested_pages tr'
  end.

(** The strings printed, in order. *)
Fixpoint printed (tr : list event) : list string :=
  match tr with
  | [] => []
  | Print s :: tr' => s :: printed tr'
  | Search _ _ _ :: tr' => printed tr'
  end.

(** ** Example 1: [pagination] *)

(** [krdict.search(query, page, per_page, raise_api_errors=True)]: the
    response, or the exception it raises.  The loop never asks for the same
    page twice, so a function of the arguments describes any sequence of
    answers. *)
Definition krdict_search : Type := string -> Z -> Z -> exn + Response.t.

Definition await_search (search : krdict_search) (query : string) (page per_page : Z)
  : io Response.t :=
  ([Search query page per_page],
   match search query page per_page with inl e => Raise e | inr r => Return r end).

Module Pagination.
(** The local variables of [pagination]. *)
Record locals := {
  page : Z;
  results : list Result.t;
  has_next : bool;
  total_results : Z }.

Definition init : locals :=
  {| page := 1; results := []; has_next := true; total_results := 0 |}.

Definition query : string := "나무".

Definition body (search : krdict_search) (st : locals) : io locals :=
  response <- await_search search query (page st) 20 ;;
  let data := Response.data response in
  let total_results := Data.total_results data in
  let page := page st + 1 in
  let results := (results st ++ Data.results data)%list in
  let has_next := (Data.per_page data * Data.page data <? total_results)%Z in
  print ("Collected " ++ str (len (Data.results data))
         ++ " results from page " ++ str (page - 1) ++ ". "
         ++ (if has_next then "Querying next page." else "All results collected.")) ;;
  ret {| page := page; results := results; has_next := has_next;
         total_results := total_results |}.

Definition loop (search : krdict_search) (fuel : nat) : io locals :=
  while has_next (body search) fuel init.

Definition has_next_values (search : krdict_search) (fuel : nat) : list bool :=
  map has_next (passes has_next (body search) fuel init).
End Pagination.

Definition pagination (search : krdict_search) (fuel : nat) : io unit :=
  st <- Pagination.loop search fuel ;;
  print (str (len (Pagination.results st)) ++ " results collected. Total results: "
         ++ str (Pagination.total_results st) ++ ".").

(** A client that serves the sequence [db] in pages of [P] entries and
    reports the page it was asked for. *)
Definition paged_client (db : list Result.t) (P : Z) : krdict_search :=
  fun _ page _ =>
    inr {| Response.response_type := "word";
           Response.is_DefinitionResponse := false;
           Response.data :=
             {| Data.url := "https://krdict.korean.go.kr/api/search";
                Data.total_results := len db;
                Data.page := page;
                Data.per_page := P;
                Data.results :=
                  firstn (Z.to_nat P) (skipn (Z.to_nat (P * (page - 1))) db) |} |}.

(** The number of requests that the completeness property speaks of:
    [ceil(T / P)], and one request when that is zero. *)
Definition ceil_div (T P : Z) : Z := (T + P - 1) / P.
Definition fetches_needed (T P : Z) : Z := Z.max 1 (ceil_div T P).

(** The pages [k, k+1, ..., k+n-1]. *)
Fixpoint pages_from (k : Z) (n : nat) : list Z :=
  match n with O => [] | S m => k :: pages_from (k + 1) m end.

(** ** The detail renderer: [_display_view_results] *)

(** [reduce(lambda x, y: x + y.original_language, ..., '')]. *)
Definition origin_of (wi : WordInfo.t) : string :=
  fold_left (fun x y => x ++ OriginalLanguage.original_language y)
            (WordInfo.original_language_info wi) EmptyString.

(** One pass of the loop that fills the list [pronunciation]. *)
Definition pronunciation_step (pronunciation : list string)
    (pronunciation_obj : Pronunciation.t) : list string :=
  let pronunciation :=
    if nonempty pronunciation then (pronunciation ++ ["/"])%list else pronunciation in
  let pronunciation :=
    (pronunciation ++ [Pronunciation.pronunciation pronunciation_obj])%list in
  match Pronunciation.url pronunciation_obj with
  | Some url => (pronunciation ++ [(" (" ++ url ++ ")")%string])%list
  | None => pronunciation
  end.

Definition pronunciation_of (wi : WordInfo.t) : list string :=
  fold_left pronunciation_step (WordInfo.pronunciation_info wi) [].

(** The bracketed pronunciation part of the header line. *)
Definition pronunciation_segment (pronunciation : list string) : string :=
  if nonempty pronunciation
  then " [" ++ join EmptyString pronunciation ++ "]"
  else EmptyString.

(** The first line printed. *)
Definition header_line (wi : WordInfo.t) : string :=
  let origin := origin_of wi in
  WordInfo.word wi
  ++ " 「" ++ WordInfo.part_of_speech wi ++ "」"
  ++ (if truthy origin then " (" ++ origin ++ ")" else EmptyString)
  ++ pronunciation_segment (pronunciation_of wi).

(** [''.join(lines)] for one definition. *)
Definition definition_text (dfn : Dfn.t) : string :=
  let lines :=
    match Dfn.translations dfn with
    | [] => [Dfn.definition dfn]
    | translation :: _ =>
        ((match Translation.word translation with
          | Some w => [w]
          | None => []
          end)
         ++ [(nl ++ "   " ++ Dfn.definition dfn)%string]
         ++ [(nl ++ "   " ++ Translation.definition translation)%string])%list
    end in
  join EmptyString lines.

Definition example_line (example : Example.t) : string :=
  "   • " ++ Example.example example.

Definition example_marker : string := "   • ...".

(** [for i, example in enumerate(dfn.example_info)], from index [i] on. *)
Fixpoint display_examples (i : nat) (l : list Example.t) : io unit :=
  match l with
  | [] => ret tt
  | example :: rest =>
      if (i =? 5)%nat then print example_marker
      else print (example_line example) ;; display_examples (S i) rest
  end.

(** The text printed for one multimedia entry. *)
Definition multimedia_line (multimedia : Multimedia.t) : exn + string :=
  if match Multimedia.content_urls multimedia with
     | Some urls => nonempty urls
     | None => false
     end
  then
    match Multimedia.content_urls multimedia with
    | Some urls =>
        inr ("   ► " ++ join "," urls ++ " (" ++ Multimedia.type multimedia ++ ")")
    | None => inl (AttributeError "content_urls")
    end
  else
    match Multimedia.url multimedia with
    | Some url => inr ("   ► " ++ url ++ " (" ++ Multimedia.type multimedia ++ ")")
    | None => inl (AttributeError "url")
    end.

Definition multimedia_marker : string := "   ► ...".

(** [for i, multimedia in enumerate(dfn.multimedia_info)], from index [i] on. *)
Fixpoint display_multimedia (i : nat) (l : list Multimedia.t) : io unit :=
  match l with
  | [] => ret tt
  | multimedia :: rest =>
      if (i =? 5)%nat then print multimedia_marker
      else
        line <- lift (multimedia_line multimedia) ;;
        print line ;;
        display_multimedia (S i) rest
  end.

(** One pass of [for idx, dfn in enumerate(result.word_info.definition_info)]. *)
Definition display_definition (idx : nat) (dfn : Dfn.t) : io unit :=
  print (str (Z.of_nat idx + 1) ++ ". " ++ definition_text dfn) ;;
  display_examples 0 (Dfn.example_info dfn) ;;
  display_multimedia 0 (Dfn.multimedia_info dfn).

Fixpoint display_definitions (idx : nat) (l : list Dfn.t) : io unit :=
  match l with
  | [] => ret tt
  | dfn :: rest => display_definition idx dfn ;; display_definitions (S idx) rest
  end.

Definition _display_view_results (response : Response.t) : io unit :=
  let data := Response.data response in
  result <- lift (index0 (Data.results data)) ;;
  word_info <- lift (Result.word_info result) ;;
  print (header_line word_info) ;;
  print (Data.url data) ;;
  display_definitions 0 (WordInfo.definition_info word_info).

(** ** The formatter: [_display_results] *)

Definition is_view (response_type : string) : bool :=
  (response_type =? "view") || (response_type =? "scraped_view").

Definition first_dfn (response : Response.t) (result : Result.t) : exn + Dfn.t :=
  if Response.is_DefinitionResponse response
  then Result.definition_info result
  else
    match Result.definitions result with
    | inl e => inl e
    | inr ds => index0 ds
    end.

Definition origin_info (result : Result.t) : string :=
  match Result.origin result with
  | Some origin => if truthy origin then " (" ++ origin ++ ")" else EmptyString
  | None => EmptyString
  end.

Definition translation_line (translation : Translation.t) : exn + string :=
  match Translation.word translation with
  | Some w => inr ("   " ++ w ++ ": " ++ Translation.definition translation)
  | None => inl (AttributeError "word")
  end.

(** [for translation in first_dfn.translations]. *)
Fixpoint display_translations (l : list Translation.t) : io unit :=
  match l with
  | [] => ret tt
  | translation :: rest =>
      line <- lift (translation_line translation) ;;
      print line ;;
      display_translations rest
  end.

(** One pass of [for idx, result in enumerate(data.results)]. *)
Definition display_result (response : Response.t) (idx : nat) (result : Result.t)
  : io unit :=
  first_dfn <- lift (first_dfn response result) ;;
  let origin_info := origin_info result in
  word <- lift (Result.word result) ;;
  print (str (Z.of_nat idx + 1) ++ ". " ++ word ++ origin_info ++ ": "
         ++ Dfn.definition first_dfn) ;;
  display_translations (Dfn.translations first_dfn).

Fixpoint display_result_list (response : Response.t) (idx : nat) (l : list Result.t)
  : io unit :=
  match l with
  | [] => ret tt
  | result :: rest =>
      display_result response idx result ;; display_result_list response (S idx) rest
  end.

Definition summary_line (total_results : Z) : string :=
  "Total Results: " ++ str total_results.

Definition _display_results (response : Response.t) : io unit :=
  if is_view (Response.response_type response)
  then _display_view_results response
  else
    let data := Response.data response in
    print (summary_line (Data.total_results data)) ;;
    display_result_list response 0 (Data.results data).

(** ** The driver: [_run_examples] and [__main__] *)

(** An example function: its docstring and what running it does. *)
Definition example_func : Type := string * io unit.

Definition pad : string := str_mul "═" 39.
Definition pad_line : string := str_mul "═" 90.

Fixpoint run_example_list (idx : nat) (l : list example_func) : io unit :=
  match l with
  | [] => ret tt
  | (doc, run) :: rest =>
      print (pad ++ " Example " ++ fmt_02d (Z.of_nat idx + 1) ++ " " ++ pad) ;;
      print doc ;;
      run ;;
      print EmptyString ;;
      run_example_list (S idx) rest
  end.

Definition _run_examples (funcs : list example_func) : io unit :=
  run_example_list 0 funcs ;;
  print pad_line.

(** The names that the module binds at top level: its imports and its
    definitions.  ([load_dotenv] is bound only when the optional import
    succeeds; it plays no part below.) *)
Definition module_globals : list string :=
  ["reduce"; "os"; "sys"; "asyncio"; "krdict";
   "_display_view_results"; "_display_results";
   "pagination"; "search_definitions"; "search_examples"; "search_idioms";
   "search_beginner_words_with_multimedia"; "search_words_with_hanja";
   "view_query"; "scraped_view_query"; "word_of_the_day";
   "fetch_semantic_category"; "fetch_subject_category"; "hanja_info";
   "_EXAMPLE_FUNCS"; "_run_examples"].

(** Reading a global name. *)
Definition load_name (globals : list string) (name : string) : exn + unit :=
  if existsb (String.eqb name) globals then inr tt else inl (NameError name).

(** The classes named by the [except] clause, evaluated left to right when an
    exception reaches it: [(krdict.KRDictException, requests.RequestException)]. *)
Inductive exn_class := KRDictException_class | RequestException_class.

Definition except_classes (globals : list string) : exn + list exn_class :=
  match load_name globals "krdict" with
  | inl e => inl e
  | inr _ =>
      match load_name globals "requests" with
      | inl e => inl e
      | inr _ => inr [KRDictException_class; RequestException_class]
      end
  end.

Definition instance_of (e : exn) (c : exn_class) : bool :=
  match e, c with
  | KRDictException _, KRDictException_class => true
  | RequestException _, RequestException_class => true
  | _, _ => false
  end.

(** How the process ends. *)
Inductive termination :=
| Finished                                   (* falls off the end: status 0 *)
| SystemExit (message : string)              (* [sys.exit(message)]: the message, status 1 *)
| Unhandled (e : exn) (context : option exn) (* traceback of [e]: status 1 *)
| Unfinished.                                (* the model ran out of fuel *)

Definition run_main (globals : list string) (funcs : list example_func)
  : list event * termination :=
  match _run_examples funcs with
  | (tr, Return _) => (tr, Finished)
  | (tr, OutOfFuel) => (tr, Unfinished)
  | (tr, Raise exc) =>
      match except_classes globals with
      | inl e => (tr, Unhandled e (Some exc))
      | inr classes =>
          if existsb (instance_of exc) classes
          then (tr, SystemExit (str_exn exc))
          else (tr, Unhandled exc None)
      end
  end.

Definition main (funcs : list example_func) : list event * termination :=
  run_main module_globals funcs.

(** The first entry of [_EXAMPLE_FUNCS]. *)
Definition pagination_example (search : krdict_search) (fuel : nat) : example_func :=
  (nl ++ "    Collects results from multiple API calls using pagination." ++ nl ++ "    ",
   pagination search fuel).

(** The header that [_run_examples] prints before the first example. *)
Definition first_banner : string := pad ++ " Example 01 " ++ pad.

(** ** Notions used to state the properties *)

(** The entries that page [k] brings, nothing when the request fails. *)
Definition page_results (search : krdict_search) (k : Z) : list Result.t :=
  match search Pagination.query k 20 with
  | inr r => Data.results (Response.data r)
  | inl _ => []
  end.

(** What a well-behaved client answers for page [k] when the whole result
    has [T] entries and pages hold [P]: it echoes the page number and the
    page size and brings [min(P, remaining)] entries. *)
Definition serves (search : krdict_search) (T P k : Z) : Prop :=
  exists r,
    search Pagination.query k 20 = inr r
    /\ Data.page (Response.data r) = k
    /\ Data.per_page (Response.data r) = P
    /\ Data.total_results (Response.data r) = T
    /\ len (Data.results (Response.data r)) = Z.min P (T - P * (k - 1)).

(** One pronunciation as it appears between two separators. *)
Definition pronunciation_piece (obj : Pronunciation.t) : string :=
  Pronunciation.pronunciation obj
  ++ match Pronunciation.url obj with
     | Some url => " (" ++ url ++ ")"
     | None => EmptyString
     end.

(** The list entries that one pronunciation contributes. *)
Definition pronunciation_tokens (obj : Pronunciation.t) : list string :=
  Pronunciation.pronunciation obj
  :: match Pronunciation.url obj with
     | Some url => [" (" ++ url ++ ")"]
     | None => []
     end.

Definition has_url (obj : Pronunciation.t) : bool :=
  match Pronunciation.url obj with Some _ => true | None => false end.


(** The text of an entry that renders, the empty string for one that does not. *)
Definition multimedia_text (m : Multimedia.t) : string :=
  match multimedia_line m with inr s => s | inl _ => EmptyString end.

Definition translation_text (t : Translation.t) : string :=
  match translation_line t with inr s => s | inl _ => EmptyString end.

(** Whether an entry renders without an exception. *)
Definition renderable (m : Multimedia.t) : bool :=
  match multimedia_line m with inr _ => true | inl _ => false end.

Definition has_word (t : Translation.t) : bool :=
  match Translation.word t with Some _ => true | None => false end.

(** Whether the byte [c] occurs in [s]. *)
Fixpoint mem_char (c : ascii) (s : string) : bool :=
  match s with
  | EmptyString => false
  | String a s' => Ascii.eqb a c || mem_char c s'
  end.

(** ** Concrete inputs *)

Definition sample_entry : Result.t := Result.WordEntry "나무" None [].

(** 45 results served 20 per page. *)
Definition client_45 : krdict_search := paged_client (repeat sample_entry 45) 20.

(** A response that reports pages of 10 entries and 15 results in all, and
    a client that gives it although 20 entries per page were asked for. *)
Definition response_echo_10 (page : Z) : Response.t :=
  {| Response.response_type := "word";
     Response.is_DefinitionResponse := false;
     Response.data :=
       {| Data.url := "https://krdict.korean.go.kr/api/search";
          Data.total_results := 15;
          Data.page := page;
          Data.per_page := 10;
          Data.results := repeat sample_entry 10 |} |}.

Definition client_echo_10 : krdict_search :=
  fun _ page _ => inr (response_echo_10 page).

(** A definition with seven examples and two multimedia entries, and a
    view response made of it. *)
Definition sample_dfn : Dfn.t :=
  {| Dfn.definition := "줄기나 가지가 목질로 된 여러해살이 식물.";
     Dfn.translations :=
       [ {| Translation.word := Some "tree";
            Translation.definition := "A plant with a hard stem." |} ];
     Dfn.example_info :=
       map (fun s => {| Example.example := s |}) ["1"; "2"; "3"; "4"; "5"; "6"; "7"];
     Dfn.multimedia_info :=
       [ {| Multimedia.url := Some "https://dicmedia.korean.go.kr/a.jpg";
            Multimedia.content_urls := None;
            Multimedia.type := "photo" |};
         {| Multimedia.url := Some "https://dicmedia.korean.go.kr/b";
            Multimedia.content_urls := Some [];
            Multimedia.type := "video" |} ] |}.

Definition sample_word_info : WordInfo.t :=
  {| WordInfo.word := "나무";
     WordInfo.part_of_speech := "명사";
     WordInfo.original_language_info := [];
     WordInfo.pronunciation_info := [];
     WordInfo.definition_info := [sample_dfn] |}.

Definition sample_view (results : list Result.t) : Response.t :=
  {| Response.response_type := "view";
     Response.is_DefinitionResponse := false;
     Response.data :=
       {| Data.url := "https://krdict.korean.go.kr/dicSearch/SearchView?ParaWordNo=32750";
          Data.total_results := 1;
          Data.page := 1;
          Data.per_page := 10;
          Data.results := results |} |}.

Definition sample_search : Response.t :=
  {| Response.response_type := "word";
     Response.is_DefinitionResponse := false;
     Response.data :=
       {| Data.url := "https://krdict.korean.go.kr/api/search";
          Data.total_results := 1;
          Data.page := 1;
          Data.per_page := 10;
          Data.results := [Result.WordEntry "나무" (Some "木") [sample_dfn]] |} |}.

(** A client whose every request fails. *)
Definition failing_client (msg : string) : krdict_search :=
  fun _ _ _ => inl (KRDictException msg).

(** ** Further notions and inputs *)

(** Whether a response tells the loop to go on. *)
Definition continues (r : Response.t) : bool :=
  (Data.per_page (Response.data r) * Data.page (Response.data r)
   <? Data.total_results (Response.data r))%Z.

(** A client that answers every request with the same first page of 10 out
    of 15 results. *)
Definition client_stuck : krdict_search :=
  fun _ _ _ => inr (response_echo_10 1).

(** A client that serves 45 results 20 per page but fails on page [k]. *)
Definition client_failing_at (k : Z) (msg : string) : krdict_search :=
  fun query page per_page =>
    if (page =? k)%Z then inl (KRDictException msg)
    else client_45 query page per_page.

(** What the list renderer prints for one result that renders: its line and
    the lines of the translations of its first definition. *)
Definition entry_ok (response : Response.t) (result : Result.t) : bool :=
  match first_dfn response result with
  | inr d => forallb has_word (Dfn.translations d)
  | inl _ => false
  end.

Definition result_lines (response : Response.t) (idx : nat) (result : Result.t)
  : list string :=
  match first_dfn response result, Result.word result with
  | inr d, inr w =>
      (str (Z.of_nat idx + 1) ++ ". " ++ w ++ origin_info result ++ ": "
       ++ Dfn.definition d)
      :: map translation_text (Dfn.translations d)
  | _, _ => []
  end.

Fixpoint result_list_lines (response : Response.t) (idx : nat) (l : list Result.t)
  : list string :=
  match l with
  | [] => []
  | result :: rest =>
      (result_lines response idx result ++ result_list_lines response (S idx) rest)%list
  end.

(** What the detail renderer prints for one definition whose multimedia
    entries render. *)
Definition dfn_ok (dfn : Dfn.t) : bool :=
  forallb renderable (firstn 5 (Dfn.multimedia_info dfn)).

Definition definition_lines (idx : nat) (dfn : Dfn.t) : list string :=
  ((str (Z.of_nat idx + 1) ++ ". " ++ definition_text dfn)%string
   :: (map example_line (firstn 5 (Dfn.example_info dfn))
       ++ (if (5 <? List.length (Dfn.example_info dfn))%nat
           then [example_marker] else []))
   ++ (map multimedia_text (firstn 5 (Dfn.multimedia_info dfn))
       ++ (if (5 <? List.length (Dfn.multimedia_info dfn))%nat
           then [multimedia_marker] else [])))%list.

Fixpoint definition_list_lines (idx : nat) (l : list Dfn.t) : list string :=
  match l with
  | [] => []
  | dfn :: rest => (definition_lines idx dfn ++ definition_list_lines (S idx) rest)%list
  end.

(** The header that [_run_examples] prints before the example at [idx], and
    the trace of a run in which every example returns. *)
Definition banner (idx : nat) : string :=
  pad ++ " Example " ++ fmt_02d (Z.of_nat idx + 1) ++ " " ++ pad.

Fixpoint run_trace (idx : nat) (funcs : list example_func) : list event :=
  match funcs with
  | [] => []
  | (doc, run) :: rest =>
      ([Print (banner idx); Print doc] ++ fst run ++ [Print EmptyString]
       ++ run_trace (S idx) rest)%list
  end.

Definition returns (f : example_func) : bool :=
  match snd (snd f) with Return _ => true | _ => false end.

(** A search response whose second entry has no definition. *)
Definition search_with_empty_definitions : Response.t :=
  {| Response.response_type := "word";
     Response.is_DefinitionResponse := false;
     Response.data :=
       {| Data.url := "https://krdict.korean.go.kr/api/search";
          Data.total_results := 2;
          Data.page := 1;
          Data.per_page := 10;
          Data.results :=
            [Result.WordEntry "나무" (Some "木") [sample_dfn];
             Result.WordEntry "나무" None []] |} |}.

(** A definition whose second translation has no word, and a search response
    with an entry made of it. *)
Definition dfn_translation_without_word : Dfn.t :=
  {| Dfn.definition := "줄기나 가지가 목질로 된 여러해살이 식물.";
     Dfn.translations :=
       [ {| Translation.word := Some "tree";
            Translation.definition := "A plant with a hard stem." |};
         {| Translation.word := None;
            Translation.definition := "木とも。" |};
         {| Translation.word := Some "arbre";
            Translation.definition := "Plante ligneuse." |} ];
     Dfn.example_info := [];
     Dfn.multimedia_info := [] |}.

(** Two examples for the driver: one that prints a line and returns, and the
    first example run against a client that fails. *)
Definition quiet_example : example_func :=
  ("Prints one line.", print "done").

Definition failing_example : example_func :=
  pagination_example (failing_client "bad key") 1.

(** ** Example 9: [word_of_the_day] *)

Module TranslationUrl.
Record t := { url : string }.
End TranslationUrl.

(** The [data] of the response of [krdict.scraper.fetch_word_of_the_day]. *)
Module WordOfDay.
Record t := {
  word : string;
  definition : string;
  translations : list Translation.t;
  translation_urls : list TranslationUrl.t;
  target_code : Z }.
End WordOfDay.

(** [krdict.scraper.view(target_code=..., translation_language=ENGLISH,
    fetch_multimedia=True)]: the response, or the exception it raises. *)
Definition scraper_view : Type := Z -> exn + Response.t.

(** The local variable [wotd_translation]. *)
Definition wotd_translation (data : WordOfDay.t) : exn + string :=
  match WordOfDay.translations data with
  | [] => inr EmptyString
  | translation :: _ =>
      match Translation.word translation with
      | Some w => inr (" (" ++ w ++ ")")
      | None => inl (AttributeError "word")
      end
  end.

(** [wotd_response] is the data of the first response, or the exception that
    the first request raises. *)
Definition word_of_the_day (wotd_response : exn + WordOfDay.t) (view : scraper_view)
  : io unit :=
  data <- lift wotd_response ;;
  wotd_translation <- lift (wotd_translation data) ;;
  translation_url <- lift (index0 (WordOfDay.translation_urls data)) ;;
  print ("Word of the Day: " ++ WordOfDay.word data ++ wotd_translation
         ++ nl ++ WordOfDay.definition data
         ++ nl ++ TranslationUrl.url translation_url) ;;
  response <- lift (view (WordOfDay.target_code data)) ;;
  print (nl ++ "Extended Info:") ;;
  _display_results response.

(** A word of the day, with and without the urls of its translations, and a
    scraper that knows its target code only. *)
Definition sample_wotd (urls : list TranslationUrl.t) : WordOfDay.t :=
  {| WordOfDay.word := "나무";
     WordOfDay.definition := "줄기나 가지가 목질로 된 여러해살이 식물.";
     WordOfDay.translations :=
       [ {| Translation.word := Some "tree";
            Translation.definition := "A plant with a hard stem." |} ];
     WordOfDay.translation_urls := urls;
     WordOfDay.target_code := 32750 |}.

Definition sample_wotd_url : TranslationUrl.t :=
  {| TranslationUrl.url := "https://krdict.korean.go.kr/eng/dicSearch/SearchView?ParaWordNo=32750" |}.

Definition sample_scraper : scraper_view :=
  fun target_code =>
    if (target_code =? 32750)%Z then inr (sample_view [])
    else inl (RequestException "not found").

(** ** The end of the process *)

(** The exit status of the process: 0 when the program falls off its end, 1
    after [sys.exit] with a message and after an exception that nothing
    handles.  A run that the model cut short has none. *)
Definition exit_status (t : termination) : option Z :=
  match t with
  | Finished => Some 0%Z
  | SystemExit _ => Some 1%Z
  | Unhandled _ _ => Some 1%Z
  | Unfinished => None
  end.

(** The descriptions that the interpreter writes to the standard error
    stream, in order: the message given to [sys.exit]; for an exception that
    nothing handles, [str] of the exception at the end of its traceback,
    preceded, when it was raised while another exception was being handled,
    by the traceback of that one, which ends with its [str]. *)
Definition stderr_descriptions (t : termination) : list string :=
  match t with
  | Finished => []
  | SystemExit message => [message]
  | Unhandled e None => [str_exn e]
  | Unhandled e (Some context) => [str_exn context; str_exn e]
  | Unfinished => []
  end.

(** * Properties *)

(** ** The monad and the loop *)

Lemma bind_ret_l {A B} (a : A) (k : A -> io B) : bind (ret a) k = k a.
Proof. unfold bind, ret. destruct (k a). reflexivity. Qed.

Lemma bind_lift_inr {A B} (a : A) (k : A -> io B) : bind (lift (inr a)) k = k a.
Proof. exact (bind_ret_l a k). Qed.

Lemma bind_lift_inl {A B} (e : exn) (k : A -> io B) :
  bind (lift (inl e)) k = ([], Raise e).
Proof. reflexivity. Qed.

Lemma bind_raise {A B} (tr : list event) (e : exn) (k : A -> io B) :
  bind (tr, Raise e) k = (tr, Raise e).
Proof. reflexivity. Qed.

Lemma bind_print {B} (s : string) (k : unit -> io B) :
  bind (print s) k = (Print s :: fst (k tt), snd (k tt)).
Proof. unfold bind, print. destruct (k tt). reflexivity. Qed.

Lemma bind_return {A B} (tr : list event) (a : A) (k : A -> io B) :
  bind (tr, Return a) k = ((tr ++ fst (k a))%list, snd (k a)).
Proof. unfold bind. destruct (k a). reflexivity. Qed.

Lemma bind_assoc {A B C} (c : io A) (k : A -> io B) (h : B -> io C) :
  bind (bind c k) h = bind c (fun a => bind (k a) h).
Proof.
  destruct c as [tr [a | e | ]]; try reflexivity.
  unfold bind at 2 3.
  destruct (k a) as [tr1 [b | e | ]]; simpl; try reflexivity.
  destruct (h b) as [tr2 o]. now rewrite app_assoc.
Qed.

Lemma len_app {A} (l1 l2 : list A) : len (l1 ++ l2)%list = (len l1 + len l2)%Z.
Proof. unfold len. rewrite length_app. lia. Qed.

Lemma requested_pages_app (tr1 tr2 : list event) :
  requested_pages (tr1 ++ tr2)%list = (requested_pages tr1 ++ requested_pages tr2)%list.
Proof.
  induction tr1 as [| [s | q p pp] tr1 IH]; simpl; [reflexivity | exact IH | now rewrite IH].
Qed.

Section WhileFacts.
Context {St : Type} (cond : St -> bool) (body : St -> io St).

Lemma while_exit (fuel : nat) (s : St) :
  cond s = false -> while cond body fuel s = ret s.
Proof. intros H. destruct fuel; simpl; now rewrite H. Qed.

Lemma while_pass (fuel : nat) (s : St) :
  cond s = true -> while cond body (S fuel) s = bind (body s) (while cond body fuel).
Proof. intros H. simpl. now rewrite H. Qed.

Lemma passes_exit (fuel : nat) (s : St) :
  cond s = false -> passes cond body fuel s = [].
Proof. intros H. destruct fuel; simpl; now rewrite H. Qed.

Lemma passes_pass (fuel : nat) (s s' : St) (tr : list event) :
  cond s = true -> body s = (tr, Return s') ->
  passes cond body (S fuel) s = s' :: passes cond body fuel s'.
Proof. intros H Hb. simpl. now rewrite H, Hb. Qed.
End WhileFacts.

(** ** Example 1: one pass of the loop *)

Lemma body_returns (search : krdict_search) (st : Pagination.locals) (r : Response.t) :
  search Pagination.query (Pagination.page st) 20 = inr r ->
  Pagination.body search st =
    ([Search Pagination.query (Pagination.page st) 20;
      Print ("Collected " ++ str (len (Data.results (Response.data r)))
             ++ " results from page " ++ str (Pagination.page st + 1 - 1) ++ ". "
             ++ (if (Data.per_page (Response.data r) * Data.page (Response.data r)
                     <? Data.total_results (Response.data r))%Z
                 then "Querying next page." else "All results collected."))],
     Return {| Pagination.page := Pagination.page st + 1;
               Pagination.results :=
                 (Pagination.results st ++ Data.results (Response.data r))%list;
               Pagination.has_next :=
                 (Data.per_page (Response.data r) * Data.page (Response.data r)
                  <? Data.total_results (Response.data r))%Z;
               Pagination.total_results := Data.total_results (Response.data r) |}).
Proof.
  intros H. unfold Pagination.body, await_search. rewrite H. reflexivity.
Qed.

Lemma body_raises (search : krdict_search) (st : Pagination.locals) (e : exn) :
  search Pagination.query (Pagination.page st) 20 = inl e ->
  Pagination.body search st =
    ([Search Pagination.query (Pagination.page st) 20], Raise e).
Proof.
  intros H. unfold Pagination.body, await_search. rewrite H. reflexivity.
Qed.

(** Whatever the client answers, a loop that returns has collected the pages
    it asked for, one after the other and in the order of the requests. *)
Lemma while_collects (search : krdict_search) (fuel : nat) :
  forall (st st' : Pagination.locals) (tr : list event),
    while Pagination.has_next (Pagination.body search) fuel st = (tr, Return st') ->
    requested_pages tr
      = pages_from (Pagination.page st) (List.length (requested_pages tr))
    /\ Pagination.results st'
       = (Pagination.results st
          ++ flat_map (page_results search) (requested_pages tr))%list.
Proof.
  induction fuel as [| fuel IH]; intros st st' tr H.
  - simpl in H. destruct (Pagination.has_next st); [discriminate |].
    injection H as <- <-. simpl. now rewrite app_nil_r.
  - destruct (Pagination.has_next st) eqn:Hn.
    + rewrite while_pass in H by exact Hn.
      destruct (search Pagination.query (Pagination.page st) 20) as [e | r] eqn:Hs.
      * rewrite (body_raises _ _ _ Hs) in H. discriminate.
      * rewrite (body_returns _ _ _ Hs), bind_return in H.
        set (st1 := {| Pagination.page := Pagination.page st + 1 |}) in H.
        destruct (while Pagination.has_next (Pagination.body search) fuel st1)
          as [tr1 o1] eqn:Hw.
        simpl in H. injection H as <- Ho. subst o1.
        destruct (IH _ _ _ Hw) as [Hp Hr]. simpl in Hp, Hr.
        simpl. split.
        -- f_equal. exact Hp.
        -- rewrite Hr, <- app_assoc. unfold page_results at 2. now rewrite Hs.
    + rewrite while_exit in H by exact Hn.
      injection H as <- <-. simpl. now rewrite app_nil_r.
Qed.

(** ** Example 1: how many pages, and what they add up to *)

Lemma fetches_needed_bounds (T P : Z) :
  (0 <= T)%Z -> (0 < P)%Z ->
  (1 <= fetches_needed T P)%Z
  /\ (T <= P * fetches_needed T P)%Z
  /\ (forall k, 1 <= k < fetches_needed T P -> P * k < T)%Z.
Proof.
  intros HT HP. unfold fetches_needed, ceil_div.
  pose proof (Z.div_mod (T + P - 1) P ltac:(lia)) as Hdm.
  pose proof (Z.mod_pos_bound (T + P - 1) P HP) as Hmod.
  set (c := ((T + P - 1) / P)%Z) in *.
  set (m := ((T + P - 1) mod P)%Z) in *.
  assert (Hc : (P * c <= T + P - 1 < P * c + P)%Z) by lia.
  destruct (Z.max_spec 1 c) as [[Hlt ->] | [Hge ->]].
  - repeat split; [lia | lia |].
    intros k Hk.
    assert ((P * k <= P * (c - 1))%Z) by (apply Z.mul_le_mono_nonneg_l; lia).
    lia.
  - repeat split; [lia | | intros k Hk; lia].
    assert ((P * c <= P * 1)%Z) by (apply Z.mul_le_mono_nonneg_l; lia).
    lia.
Qed.

Lemma pages_from_length (k : Z) (n : nat) : List.length (pages_from k n) = n.
Proof. revert k. induction n as [| n IH]; intros k; simpl; [reflexivity | now rewrite IH]. Qed.

Section Completeness.
Variables (search : krdict_search) (T P n : Z).
Hypothesis HP : (0 < P)%Z.
Hypothesis HT : (0 <= T)%Z.
Hypothesis Hn : (1 <= n)%Z.
Hypothesis Hlast : (T <= P * n)%Z.
Hypothesis Hmore : forall k, (1 <= k < n)%Z -> (P * k < T)%Z.
Hypothesis Hserves : forall k, (1 <= k <= n)%Z -> serves search T P k.

(** From a state that is about to ask for page [k], with the first [k-1]
    full pages collected, [j + 1] more passes reach page [n] and stop. *)
Lemma loop_from (j : nat) :
  forall (st : Pagination.locals) (fuel : nat),
    Pagination.has_next st = true ->
    (1 <= Pagination.page st)%Z ->
    (Pagination.page st + Z.of_nat j = n)%Z ->
    len (Pagination.results st) = (P * (Pagination.page st - 1))%Z ->
    (S j <= fuel)%nat ->
    exists tr st',
      while Pagination.has_next (Pagination.body search) fuel st = (tr, Return st')
      /\ requested_pages tr = pages_from (Pagination.page st) (S j)
      /\ len (Pagination.results st') = T
      /\ Pagination.total_results st' = T
      /\ map Pagination.has_next
           (passes Pagination.has_next (Pagination.body search) fuel st)
         = (repeat true j ++ [false])%list.
Proof.
  induction j as [| j IH]; intros st fuel Hnext Hk Hj Hlen Hfuel;
    (destruct fuel as [| fuel]; [lia |]);
    destruct (Hserves (Pagination.page st) ltac:(lia))
      as (r & Hs & Hpage & Hper & Htot & Hcount);
    pose proof (body_returns _ _ _ Hs) as Hbody;
    rewrite Hpage, Hper, Htot in Hbody;
    rewrite while_pass by exact Hnext;
    rewrite (passes_pass _ _ _ _ _ _ Hnext Hbody);
    rewrite Hbody, bind_return.
  - assert (Hstop : (P * Pagination.page st <? T)%Z = false)
      by (apply Z.ltb_ge; replace (Pagination.page st) with n by lia; exact Hlast).
    rewrite Hstop.
    rewrite while_exit by reflexivity. rewrite passes_exit by reflexivity.
    eexists; eexists; split; [reflexivity |]. simpl.
    repeat split; try reflexivity.
    rewrite len_app, Hlen, Hcount.
    assert (Hprev : (P * (Pagination.page st - 1) <= T)%Z).
    { destruct (Z.eq_dec (Pagination.page st) 1) as [-> | Hne]; [lia |].
      specialize (Hmore (Pagination.page st - 1)%Z ltac:(lia)). lia. }
    nia.
  - assert (Hgo : (P * Pagination.page st <? T)%Z = true)
      by (apply Z.ltb_lt; apply Hmore; lia).
    rewrite Hgo.
    set (st1 := {| Pagination.page := Pagination.page st + 1 |}).
    destruct (IH st1 fuel) as (tr & st' & Hw & Hreq & HlenT & HtotT & Hpasses).
    + reflexivity.
    + simpl; lia.
    + simpl; lia.
    + simpl. rewrite len_app, Hlen, Hcount.
      specialize (Hmore (Pagination.page st) ltac:(lia)). nia.
    + lia.
    + rewrite Hw. simpl snd. simpl fst.
      eexists; eexists; split; [reflexivity |].
      repeat split; try assumption.
      * simpl. rewrite Hreq. reflexivity.
      * simpl. now rewrite Hpasses.
Qed.
End Completeness.

(** The client that pages through [db] is well behaved. *)
Lemma paged_client_serves (db : list Result.t) (P k : Z) :
  (0 < P)%Z -> (1 <= k)%Z -> (P * (k - 1) <= len db)%Z ->
  serves (paged_client db P) (len db) P k.
Proof.
  intros HP Hk Hin. eexists; split; [reflexivity |]. simpl.
  repeat split. unfold len in *. rewrite length_firstn, length_skipn.
  assert ((0 <= P * (k - 1))%Z) by nia. lia.
Qed.

Lemma firstn_add {A} (a b : nat) (l : list A) :
  (firstn a l ++ firstn b (skipn a l))%list = firstn (a + b) l.
Proof.
  revert l. induction a as [| a IH]; intros l; simpl; [reflexivity |].
  destruct l as [| x l]; simpl; [now rewrite firstn_nil | now rewrite IH].
Qed.

(** Pages [k], [k+1], ... of the paging client, put end to end. *)
Lemma paged_client_pages (db : list Result.t) (P : Z) (j : nat) :
  (0 < P)%Z ->
  forall k, (1 <= k)%Z ->
    flat_map (page_results (paged_client db P)) (pages_from k j)
    = firstn (j * Z.to_nat P) (skipn (Z.to_nat (P * (k - 1))) db).
Proof.
  intros HP. induction j as [| j IH]; intros k Hk; simpl; [reflexivity |].
  rewrite IH by lia.
  unfold page_results at 1. simpl.
  replace (Z.to_nat (P * (k + 1 - 1))) with (Z.to_nat P + Z.to_nat (P * (k - 1)))%nat
    by nia.
  rewrite <- skipn_skipn. apply firstn_add.
Qed.

(** Against a well-behaved client the loop returns, given fuel for
    [fetches_needed T P] passes. *)
Lemma pagination_loop_total (search : krdict_search) (T P : Z) (fuel : nat) :
  (0 <= T)%Z -> (0 < P)%Z ->
  (forall k, (1 <= k <= fetches_needed T P)%Z -> serves search T P k) ->
  (Z.to_nat (fetches_needed T P) <= fuel)%nat ->
  exists tr st,
    Pagination.loop search fuel = (tr, Return st)
    /\ requested_pages tr = pages_from 1 (Z.to_nat (fetches_needed T P))
    /\ Pagination.total_results st = T.
Proof.
  intros HT HP Hserves Hfuel.
  destruct (fetches_needed_bounds T P HT HP) as (Hn & Hlast & Hmore).
  destruct (loop_from search T P (fetches_needed T P) HP HT Hn Hlast Hmore Hserves
              (Z.to_nat (fetches_needed T P) - 1) Pagination.init fuel)
    as (tr & st & Hw & Hreq & Hlen & Htot & Hpasses);
    try reflexivity;
    try (unfold len, Pagination.init;
         cbn [Pagination.page Pagination.results List.length]; lia).
  replace (S (Z.to_nat (fetches_needed T P) - 1))
    with (Z.to_nat (fetches_needed T P)) in Hreq by lia.
  exists tr, st. repeat split; assumption.
Qed.

(** C1 (pagination completeness).  Let the whole result have [T >= 0]
    entries and let pages hold [P > 0].  If every page the loop asks for is
    answered with the page number asked for, the page size [P], the total [T]
    and [min(P, remaining)] entries, then [pagination] returns after exactly
    [fetches_needed T P] requests, that is [ceil(T / P)] and one request when
    [T = 0]: it asks for the pages [1, 2, ...] once each, collects [T] entries,
    and [has_next] is true after every pass but the last. *)
Theorem pagination_completeness (search : krdict_search) (T P : Z) (fuel : nat) :
  (0 <= T)%Z -> (0 < P)%Z ->
  (forall k, (1 <= k <= fetches_needed T P)%Z -> serves search T P k) ->
  (Z.to_nat (fetches_needed T P) <= fuel)%nat ->
  exists tr st,
    Pagination.loop search fuel = (tr, Return st)
    /\ requested_pages tr = pages_from 1 (Z.to_nat (fetches_needed T P))
    /\ len (requested_pages tr) = fetches_needed T P
    /\ len (Pagination.results st) = T
    /\ Pagination.total_results st = T
    /\ Pagination.has_next_values search fuel
       = (repeat true (Z.to_nat (fetches_needed T P) - 1) ++ [false])%list
    /\ pagination search fuel
       = ((tr ++ [Print (str T ++ " results collected. Total results: "
                         ++ str T ++ ".")])%list,
          Return tt).
Proof.
  intros HT HP Hserves Hfuel.
  destruct (fetches_needed_bounds T P HT HP) as (Hn & Hlast & Hmore).
  destruct (loop_from search T P (fetches_needed T P) HP HT Hn Hlast Hmore Hserves
              (Z.to_nat (fetches_needed T P) - 1) Pagination.init fuel)
    as (tr & st & Hw & Hreq & Hlen & Htot & Hpasses);
    try reflexivity;
    try (unfold len, Pagination.init;
         cbn [Pagination.page Pagination.results List.length]; lia).
  replace (S (Z.to_nat (fetches_needed T P) - 1))
    with (Z.to_nat (fetches_needed T P)) in Hreq by lia.
  exists tr, st. repeat split; try assumption.
  - rewrite Hreq. unfold len. rewrite pages_from_length. lia.
  - unfold pagination. unfold Pagination.loop in Hw |- *. rewrite Hw.
    rewrite bind_return. simpl. now rewrite Hlen, Htot.
Qed.

(** The scenario of 45 results in pages of 20: three requests, for the pages
    1, 2 and 3, and [has_next] is true, true, false. *)
Lemma pagination_completeness_45_by_20 :
  exists tr st,
    Pagination.loop client_45 3 = (tr, Return st)
    /\ requested_pages tr = [1; 2; 3]%Z
    /\ len (requested_pages tr) = 3%Z
    /\ len (Pagination.results st) = 45%Z
    /\ Pagination.total_results st = 45%Z
    /\ Pagination.has_next_values client_45 3 = [true; true; false]
    /\ pagination client_45 3
       = ((tr ++ [Print "45 results collected. Total results: 45."])%list, Return tt).
Proof.
  apply (pagination_completeness client_45 45 20 3).
  - lia.
  - lia.
  - intros k Hk. change (fetches_needed 45 20) with 3%Z in Hk.
    apply (paged_client_serves (repeat sample_entry 45) 20 k).
    + lia.
    + lia.
    + change (len (repeat sample_entry 45)) with 45%Z. lia.
  - vm_compute. lia.
Defined.

(** C7 (order preservation).  Whatever the pages contain, a run of the loop
    that returns has asked for the pages [1, 2, ..., m] in this order and its
    collected sequence is the pages' result sequences put end to end in the
    same order.  Against a client that serves a sequence [db] in pages of any
    size [P > 0] the loop does return, and what it has collected is [db]
    itself, the answer of a single request for everything. *)
Theorem pagination_order_preserved :
  (forall (search : krdict_search) (fuel : nat) (tr : list event)
          (st : Pagination.locals),
      Pagination.loop search fuel = (tr, Return st) ->
      requested_pages tr = pages_from 1 (List.length (requested_pages tr))
      /\ Pagination.results st
         = flat_map (page_results search) (requested_pages tr))
  /\ (forall (db : list Result.t) (P : Z) (fuel : nat),
         (0 < P)%Z ->
         (Z.to_nat (fetches_needed (len db) P) <= fuel)%nat ->
         exists tr st,
           Pagination.loop (paged_client db P) fuel = (tr, Return st)
           /\ Pagination.results st = db
           /\ Pagination.total_results st = len db).
Proof.
  split.
  - intros search fuel tr st H.
    exact (while_collects search fuel Pagination.init st tr H).
  - intros db P fuel HP Hfuel.
    assert (HT : (0 <= len db)%Z) by (unfold len; lia).
    destruct (fetches_needed_bounds (len db) P HT HP) as (Hn & Hlast & Hmore).
    destruct (pagination_loop_total (paged_client db P) (len db) P fuel HT HP)
      as (tr & st & Hw & Hreq & Htot); [| exact Hfuel |].
    + intros k Hk. apply paged_client_serves; [lia | lia |].
      destruct (Z.eq_dec k 1) as [-> | Hne]; [lia |].
      specialize (Hmore (k - 1)%Z ltac:(lia)). lia.
    + exists tr, st. repeat split; [exact Hw | | exact Htot].
      destruct (while_collects _ _ _ _ _ Hw) as [_ Hres].
      rewrite Hres, Hreq. simpl.
      rewrite paged_client_pages by lia.
      replace (Z.to_nat (P * (1 - 1))) with 0%nat by lia.
      simpl skipn. apply firstn_all2.
      rewrite <- Z2Nat.inj_mul by lia.
      apply Nat2Z.inj_le. rewrite Z2Nat.id by nia.
      change (Z.of_nat (List.length db)) with (len db). lia.
Qed.

(** 45 entries served 20 at a time come back as the same 45 entries. *)
Lemma pagination_order_preserved_45_by_20 :
  exists tr st,
    Pagination.loop client_45 3 = (tr, Return st)
    /\ Pagination.results st = repeat sample_entry 45
    /\ Pagination.total_results st = 45%Z.
Proof.
  apply (proj2 pagination_order_preserved (repeat sample_entry 45) 20%Z 3%nat).
  - lia.
  - vm_compute. lia.
Defined.

(** C10 (the continuation test reads the response).  After a pass whose
    request was answered by [r], [has_next] is
    [r.data.per_page * r.data.page < r.data.total_results]: the page number
    and the page size are the ones inside the response, whatever page the
    counter [page] stood at and although 20 entries per page were asked for;
    and the loop goes on to another request exactly when this test holds. *)
Theorem continuation_follows_response (search : krdict_search)
    (st : Pagination.locals) (r : Response.t) :
  search Pagination.query (Pagination.page st) 20 = inr r ->
  exists tr st',
    Pagination.body search st = (tr, Return st')
    /\ Pagination.has_next st'
       = (Data.per_page (Response.data r) * Data.page (Response.data r)
          <? Data.total_results (Response.data r))%Z
    /\ Pagination.page st' = (Pagination.page st + 1)%Z
    /\ forall fuel,
         while Pagination.has_next (Pagination.body search) (S fuel) st'
         = if (Data.per_page (Response.data r) * Data.page (Response.data r)
               <? Data.total_results (Response.data r))%Z
           then bind (Pagination.body search st')
                     (while Pagination.has_next (Pagination.body search) fuel)
           else ret st'.
Proof.
  intros Hs. eexists; eexists. split; [exact (body_returns _ _ _ Hs) |].
  cbn [Pagination.has_next Pagination.page].
  split; [reflexivity |]. split; [reflexivity |].
  intros fuel.
  destruct (Data.per_page (Response.data r) * Data.page (Response.data r)
            <? Data.total_results (Response.data r))%Z eqn:Hnext.
  - now rewrite while_pass by reflexivity.
  - now rewrite while_exit by reflexivity.
Qed.

(** A response that reports pages of 10 and 15 results in all makes the loop
    go on after page 1, since [10 * 1 < 15], although the request asked for
    20 per page and [20 * 1 < 15] does not hold. *)
Lemma continuation_follows_response_echo_10 :
  (20 * Pagination.page Pagination.init <? 15)%Z = false
  /\ exists tr st',
       Pagination.body client_echo_10 Pagination.init = (tr, Return st')
       /\ Pagination.has_next st' = true
       /\ Pagination.page st' = 2%Z
       /\ forall fuel,
            while Pagination.has_next (Pagination.body client_echo_10) (S fuel) st'
            = bind (Pagination.body client_echo_10 st')
                   (while Pagination.has_next (Pagination.body client_echo_10) fuel).
Proof.
  split; [reflexivity |].
  exact (continuation_follows_response client_echo_10 Pagination.init
           (response_echo_10 1) eq_refl).
Defined.

(** ** Exceptions of the client *)

(** A request that raises ends the loop at once: the exception is the
    outcome, and the failing page has been asked for once. *)
Lemma while_propagates (search : krdict_search) (st : Pagination.locals)
    (e : exn) (fuel : nat) :
  Pagination.has_next st = true ->
  search Pagination.query (Pagination.page st) 20 = inl e ->
  while Pagination.has_next (Pagination.body search) (S fuel) st
  = ([Search Pagination.query (Pagination.page st) 20], Raise e).
Proof.
  intros Hnext Hs. rewrite while_pass by exact Hnext.
  now rewrite (body_raises _ _ _ Hs).
Qed.

Lemma pagination_propagates (search : krdict_search) (e : exn) (fuel : nat) :
  search Pagination.query 1 20 = inl e ->
  pagination search (S fuel) = ([Search Pagination.query 1 20], Raise e).
Proof.
  intros Hs. unfold pagination, Pagination.loop.
  now rewrite (while_propagates search Pagination.init e fuel eq_refl Hs).
Qed.

(** The [except] clause at work.  When the first request of Example 1 raises
    a [KRDictException], the exception leaves [pagination] and
    [_run_examples] after that one request.  At the [except] clause the name
    [requests] is read, which the module never binds: the clause raises
    [NameError] and the handler with [sys.exit(str(exc))] is not entered. *)
Theorem main_domain_error_unhandled (msg : string) (fuel : nat)
    (rest : list example_func) :
  main (pagination_example (failing_client msg) (S fuel) :: rest)
  = ([Print first_banner;
      Print (fst (pagination_example (failing_client msg) (S fuel)));
      Search Pagination.query 1 20],
     Unhandled (NameError "requests") (Some (KRDictException msg)))
  /\ snd (main (pagination_example (failing_client msg) (S fuel) :: rest))
     <> SystemExit (str_exn (KRDictException msg)).
Proof.
  assert (Hrun : main (pagination_example (failing_client msg) (S fuel) :: rest)
                 = ([Print first_banner;
                     Print (fst (pagination_example (failing_client msg) (S fuel)));
                     Search Pagination.query 1 20],
                    Unhandled (NameError "requests") (Some (KRDictException msg)))).
  { unfold main, run_main, _run_examples, pagination_example.
    cbn [run_example_list fst].
    rewrite (pagination_propagates (failing_client msg) (KRDictException msg) fuel
               eq_refl).
    reflexivity. }
  split; [exact Hrun |]. rewrite Hrun. discriminate.
Qed.

(** With [requests] bound as well, the same run would end in
    [sys.exit(str(exc))]. *)
Lemma main_domain_error_with_requests (msg : string) (fuel : nat)
    (rest : list example_func) :
  snd (run_main ("requests" :: module_globals)
         (pagination_example (failing_client msg) (S fuel) :: rest))
  = SystemExit msg.
Proof.
  unfold run_main, _run_examples, pagination_example.
  cbn [run_example_list fst].
  rewrite (pagination_propagates (failing_client msg) (KRDictException msg) fuel eq_refl).
  reflexivity.
Qed.

(** ** Strings *)

Lemma append_nil_r (s : string) : s ++ EmptyString = s.
Proof. induction s as [| c s IH]; simpl; [reflexivity | now rewrite IH]. Qed.

Lemma append_assoc (a b c : string) : (a ++ b) ++ c = a ++ (b ++ c).
Proof. induction a as [| x a IH]; simpl; [reflexivity | now rewrite IH]. Qed.

Lemma join_empty_cons (x : string) (l : list string) :
  join EmptyString (x :: l) = x ++ join EmptyString l.
Proof. destruct l; simpl; [now rewrite append_nil_r | reflexivity]. Qed.

Lemma join_empty_app (l1 l2 : list string) :
  join EmptyString (l1 ++ l2)%list = join EmptyString l1 ++ join EmptyString l2.
Proof.
  induction l1 as [| x l1 IH]; [reflexivity |].
  change ((x :: l1) ++ l2)%list with (x :: (l1 ++ l2))%list.
  now rewrite !join_empty_cons, IH, append_assoc.
Qed.

Lemma mem_char_app (c : ascii) (a b : string) :
  mem_char c (a ++ b) = mem_char c a || mem_char c b.
Proof.
  induction a as [| x a IH]; simpl; [reflexivity | now rewrite IH, orb_assoc].
Qed.

(** The decimal form of an integer has no byte of the bracket ["「"]. *)
Lemma str_plain (n : Z) : mem_char "227"%char (str n) = false.
Proof.
  assert (Hu : forall u, mem_char "227"%char (NilEmpty.string_of_uint u) = false)
    by (induction u; simpl; auto).
  assert (Hz : forall u, mem_char "227"%char (NilZero.string_of_uint u) = false)
    by (intros u; destruct u; try reflexivity; apply Hu).
  unfold str. destruct (Z.to_int n); simpl; apply Hz.
Qed.

Lemma header_not_summary (wi : WordInfo.t) (n : Z) : header_line wi <> summary_line n.
Proof.
  intros H.
  assert (Hh : mem_char "227"%char (header_line wi) = true).
  { unfold header_line. rewrite mem_char_app. simpl. apply orb_true_r. }
  assert (Hs : mem_char "227"%char (summary_line n) = false).
  { unfold summary_line. rewrite mem_char_app, str_plain. reflexivity. }
  rewrite H, Hs in Hh. discriminate.
Qed.

(** ** The pronunciation list *)

Lemma pronunciation_step_nonempty (acc : list string) (obj : Pronunciation.t) :
  nonempty acc = true ->
  pronunciation_step acc obj = (acc ++ "/" :: pronunciation_tokens obj)%list.
Proof.
  intros H. unfold pronunciation_step, pronunciation_tokens. rewrite H.
  destruct (Pronunciation.url obj); now rewrite <- !app_assoc.
Qed.

Lemma nonempty_app_cons {A} (l1 : list A) (x : A) (l2 : list A) :
  nonempty (l1 ++ x :: l2)%list = true.
Proof. destruct l1; reflexivity. Qed.

Lemma pronunciation_fold_nonempty (l : list Pronunciation.t) :
  forall acc, nonempty acc = true ->
    fold_left pronunciation_step l acc
    = (acc ++ flat_map (fun o => "/" :: pronunciation_tokens o) l)%list.
Proof.
  induction l as [| o l IH]; intros acc H; simpl.
  - now rewrite app_nil_r.
  - rewrite pronunciation_step_nonempty by exact H.
    rewrite IH by apply nonempty_app_cons.
    now rewrite <- app_assoc.
Qed.

Lemma pronunciation_fold_cons (o : Pronunciation.t) (l : list Pronunciation.t) :
  fold_left pronunciation_step (o :: l) []
  = (pronunciation_tokens o ++ flat_map (fun o' => "/" :: pronunciation_tokens o') l)%list.
Proof.
  simpl.
  assert (Hfirst : pronunciation_step [] o = pronunciation_tokens o)
    by (unfold pronunciation_step, pronunciation_tokens;
        destruct (Pronunciation.url o); reflexivity).
  rewrite Hfirst. apply pronunciation_fold_nonempty. reflexivity.
Qed.

Lemma join_tokens (o : Pronunciation.t) :
  join EmptyString (pronunciation_tokens o) = pronunciation_piece o.
Proof.
  unfold pronunciation_tokens, pronunciation_piece.
  destruct (Pronunciation.url o); simpl; [reflexivity | now rewrite append_nil_r].
Qed.

Lemma join_slash_pieces (l : list Pronunciation.t) :
  forall o,
    join "/" (map pronunciation_piece (o :: l))
    = pronunciation_piece o
      ++ join EmptyString (flat_map (fun o' => "/" :: pronunciation_tokens o') l).
Proof.
  induction l as [| o' l IH]; intros o.
  - simpl. now rewrite append_nil_r.
  - change (join "/" (map pronunciation_piece (o :: o' :: l)))
      with (pronunciation_piece o
            ++ "/" ++ join "/" (map pronunciation_piece (o' :: l))).
    rewrite IH.
    change (flat_map (fun o'0 => "/" :: pronunciation_tokens o'0) (o' :: l))
      with ("/" :: (pronunciation_tokens o'
                    ++ flat_map (fun o'0 => "/" :: pronunciation_tokens o'0) l))%list.
    now rewrite join_empty_cons, join_empty_app, join_tokens.
Qed.

Lemma tokens_length (l : list Pronunciation.t) :
  List.length (flat_map (fun o => "/" :: pronunciation_tokens o) l)
  = (List.length l + List.length l + List.length (filter has_url l))%nat.
Proof.
  induction l as [| o l IH]; [reflexivity |].
  cbn [flat_map filter]. rewrite length_app. cbn [List.length]. rewrite IH.
  unfold has_url, pronunciation_tokens.
  destruct (Pronunciation.url o); cbn [List.length]; lia.
Qed.

(** C3 (pronunciation joining).  For a word with [k] pronunciation entries
    the list [pronunciation] holds the entries' texts, each followed by
    [" (url)"] when the entry has a url, with one ["/"] before every entry
    but the first: [k - 1] separators.  The header line carries them joined
    between [" ["] and ["]"], and carries no such part when [k = 0]. *)
Theorem pronunciation_joining (wi : WordInfo.t) :
  let infos := WordInfo.pronunciation_info wi in
  let k := List.length infos in
  pronunciation_of wi
    = match infos with
      | [] => []
      | o :: rest =>
          (pronunciation_tokens o
           ++ flat_map (fun o' => "/" :: pronunciation_tokens o') rest)%list
      end
  /\ List.length (pronunciation_of wi)
     = (k + (k - 1) + List.length (filter has_url infos))%nat
  /\ pronunciation_segment (pronunciation_of wi)
     = match infos with
       | [] => EmptyString
       | _ :: _ => " [" ++ join "/" (map pronunciation_piece infos) ++ "]"
       end
  /\ header_line wi
     = WordInfo.word wi ++ " 「" ++ WordInfo.part_of_speech wi ++ "」"
       ++ (if truthy (origin_of wi) then " (" ++ origin_of wi ++ ")" else EmptyString)
       ++ match infos with
          | [] => EmptyString
          | _ :: _ => " [" ++ join "/" (map pronunciation_piece infos) ++ "]"
          end.
Proof.
  intros infos k.
  assert (Hlist : pronunciation_of wi
                  = match infos with
                    | [] => []
                    | o :: rest =>
                        (pronunciation_tokens o
                         ++ flat_map (fun o' => "/" :: pronunciation_tokens o') rest)%list
                    end).
  { unfold pronunciation_of. fold infos. destruct infos as [| o rest];
      [reflexivity | apply pronunciation_fold_cons]. }
  assert (Hseg : pronunciation_segment (pronunciation_of wi)
                 = match infos with
                   | [] => EmptyString
                   | _ :: _ => " [" ++ join "/" (map pronunciation_piece infos) ++ "]"
                   end).
  { rewrite Hlist. destruct infos as [| o rest]; [reflexivity |].
    unfold pronunciation_segment.
    assert (Hne : nonempty (pronunciation_tokens o
                   ++ flat_map (fun o' => "/" :: pronunciation_tokens o') rest)%list = true)
      by reflexivity.
    rewrite Hne, join_empty_app, join_tokens, join_slash_pieces. reflexivity. }
  split; [exact Hlist |]. split; [| split; [exact Hseg |]].
  - rewrite Hlist. subst k. destruct infos as [| o rest]; [reflexivity |].
    rewrite length_app, tokens_length. cbn [filter List.length].
    unfold has_url, pronunciation_tokens.
    destruct (Pronunciation.url o); cbn [List.length]; lia.
  - unfold header_line. now rewrite Hseg.
Qed.

(** ** Examples and multimedia of one definition *)

Lemma display_examples_from (l : list Example.t) :
  forall i, (i <= 5)%nat ->
    display_examples i l
    = (map Print (map example_line (firstn (5 - i) l)
                  ++ (if (5 - i <? List.length l)%nat then [example_marker] else []))%list,
       Return tt).
Proof.
  induction l as [| x l IH]; intros i Hi.
  - simpl. rewrite firstn_nil. now destruct (5 - i)%nat.
  - cbn [display_examples]. destruct (Nat.eqb_spec i 5) as [-> | Hne].
    + reflexivity.
    + rewrite bind_print, IH by lia.
      replace (5 - i)%nat with (S (5 - S i)) by lia. reflexivity.
Qed.

Lemma display_multimedia_from (l : list Multimedia.t) :
  forall i, (i <= 5)%nat ->
    forallb renderable (firstn (5 - i) l) = true ->
    display_multimedia i l
    = (map Print (map multimedia_text (firstn (5 - i) l)
                  ++ (if (5 - i <? List.length l)%nat then [multimedia_marker] else []))%list,
       Return tt).
Proof.
  induction l as [| x l IH]; intros i Hi Hok.
  - simpl. rewrite firstn_nil. now destruct (5 - i)%nat.
  - cbn [display_multimedia]. destruct (Nat.eqb_spec i 5) as [-> | Hne].
    + reflexivity.
    + replace (5 - i)%nat with (S (5 - S i)) in * by lia.
      cbn [firstn forallb] in Hok. apply andb_prop in Hok as [Hx Hrest].
      unfold renderable in Hx. unfold multimedia_text at 1.
      destruct (multimedia_line x) as [e | s] eqn:Hline; [discriminate |].
      unfold lift. rewrite bind_return, bind_print, IH by (assumption || lia).
      cbn [firstn map app fst snd List.length]. unfold multimedia_text at 1.
      now rewrite Hline.
Qed.

(** C2 (truncation bound).  What the detail renderer prints for a definition
    is its numbered text, then its examples, then its multimedia entries.  Of
    [N] examples the first [min(N, 5)] are printed as bullet lines, then the
    line ["   • ..."] once if [N > 5] and not at all otherwise; a sixth
    example is never printed.  The same holds of the multimedia entries (when
    the first five of them render), whose marker line ["   ► ..."] is a
    different one. *)
Theorem truncation_bound (idx : nat) (dfn : Dfn.t) :
  forallb renderable (firstn 5 (Dfn.multimedia_info dfn)) = true ->
  display_definition idx dfn
  = (map Print
       ((str (Z.of_nat idx + 1) ++ ". " ++ definition_text dfn)%string
        :: (map example_line (firstn 5 (Dfn.example_info dfn))
            ++ (if (5 <? List.length (Dfn.example_info dfn))%nat
                then [example_marker] else []))
        ++ (map multimedia_text (firstn 5 (Dfn.multimedia_info dfn))
            ++ (if (5 <? List.length (Dfn.multimedia_info dfn))%nat
                then [multimedia_marker] else [])))%list,
     Return tt)
  /\ List.length (map example_line (firstn 5 (Dfn.example_info dfn)))
     = Nat.min (List.length (Dfn.example_info dfn)) 5
  /\ List.length (map multimedia_text (firstn 5 (Dfn.multimedia_info dfn)))
     = Nat.min (List.length (Dfn.multimedia_info dfn)) 5
  /\ example_marker <> multimedia_marker.
Proof.
  intros Hok. repeat split.
  - unfold display_definition.
    rewrite (display_examples_from _ 0) by lia.
    rewrite (display_multimedia_from _ 0 (Nat.le_0_l 5) Hok).
    unfold print, bind. cbn [Nat.sub map]. rewrite !map_app. reflexivity.
  - rewrite length_map, length_firstn. lia.
  - rewrite length_map, length_firstn. lia.
  - discriminate.
Qed.

(** Seven examples give five bullet lines and the marker; two multimedia
    entries give two lines and no marker. *)
Lemma truncation_bound_7_and_2 :
  display_definition 0 sample_dfn
  = (map Print
       ((str 1 ++ ". " ++ definition_text sample_dfn)%string
        :: (["   • 1"; "   • 2"; "   • 3"; "   • 4"; "   • 5"] ++ [example_marker])
        ++ (["   ► https://dicmedia.korean.go.kr/a.jpg (photo)";
             "   ► https://dicmedia.korean.go.kr/b (video)"] ++ []))%list,
     Return tt)
  /\ 5%nat = Nat.min 7 5
  /\ 2%nat = Nat.min 2 5
  /\ example_marker <> multimedia_marker.
Proof.
  exact (truncation_bound 0 sample_dfn eq_refl).
Defined.

(** C9 (which form a multimedia entry takes).  The comma-joined content
    urls are printed exactly when [content_urls] is present and not empty.
    When it is present and empty, as when it is absent, the entry is printed
    from its member [url] followed by the type in parentheses, and reading
    [url] raises if the entry has none. *)
Theorem multimedia_form (m : Multimedia.t) :
  multimedia_line m
  = match Multimedia.content_urls m with
    | Some (u :: us) =>
        inr ("   ► " ++ join "," (u :: us) ++ " (" ++ Multimedia.type m ++ ")")
    | Some [] | None =>
        match Multimedia.url m with
        | Some url => inr ("   ► " ++ url ++ " (" ++ Multimedia.type m ++ ")")
        | None => inl (AttributeError "url")
        end
    end
  /\ display_multimedia 0 [m]
     = match multimedia_line m with
       | inr line => ([Print line], Return tt)
       | inl e => ([], Raise e)
       end.
Proof.
  split.
  - unfold multimedia_line. destruct (Multimedia.content_urls m) as [[| u us] |];
      reflexivity.
  - cbn [display_multimedia Nat.eqb]. unfold lift.
    destruct (multimedia_line m); reflexivity.
Qed.

(** ** The list renderer *)

Lemma display_translations_lines (l : list Translation.t) :
  forallb has_word l = true ->
  display_translations l = (map Print (map translation_text l), Return tt).
Proof.
  induction l as [| t l IH]; intros H; [reflexivity |].
  cbn [forallb] in H. apply andb_prop in H as [Ht Hl].
  cbn [display_translations map]. unfold translation_text at 1, lift.
  unfold has_word in Ht. unfold translation_line.
  destruct (Translation.word t) as [w |]; [| discriminate].
  rewrite bind_return, bind_print, IH by exact Hl. reflexivity.
Qed.

Lemma display_result_list_app (response : Response.t) (l1 l2 : list Result.t) :
  forall idx,
    display_result_list response idx (l1 ++ l2)%list
    = (display_result_list response idx l1 ;;
       display_result_list response (idx + List.length l1) l2).
Proof.
  induction l1 as [| r l1 IH]; intros idx.
  - cbn [app display_result_list List.length].
    now rewrite bind_ret_l, Nat.add_0_r.
  - cbn [app display_result_list List.length]. rewrite IH, bind_assoc.
    now rewrite Nat.add_succ_r.
Qed.




(** ** Dispatch on the response type *)

Lemma is_view_spec (response_type : string) :
  is_view response_type = true
  <-> response_type = "view" \/ response_type = "scraped_view".
Proof.
  unfold is_view. rewrite orb_true_iff, !String.eqb_eq. reflexivity.
Qed.

Lemma view_first_line (response : Response.t) (e : event) (tr : list event)
    (o : outcome unit) :
  _display_view_results response = (e :: tr, o) ->
  exists wi, e = Print (header_line wi).
Proof.
  unfold _display_view_results.
  destruct (index0 (Data.results (Response.data response))) as [err | result];
    [rewrite bind_lift_inl; discriminate |].
  rewrite bind_lift_inr.
  destruct (Result.word_info result) as [err | wi];
    [rewrite bind_lift_inl; discriminate |].
  rewrite bind_lift_inr, bind_print. intros [= <- _ _]. now exists wi.
Qed.

(** C4 (variant branching).  A response whose type is ['view'] or
    ['scraped_view'] is rendered by [_display_view_results] and by nothing
    else: the line "Total Results: ..." is not printed, the output begins
    with the header line of the word, which is never the text of a summary
    line.  A response of any other type is rendered by the list renderer,
    and the first thing printed is the summary line with the total. *)
Theorem variant_branching (response : Response.t) :
  (is_view (Response.response_type response) = true
   <-> Response.response_type response = "view"
       \/ Response.response_type response = "scraped_view")
  /\ (is_view (Response.response_type response) = true ->
      _display_results response = _display_view_results response
      /\ forall e tr o n,
           _display_results response = (e :: tr, o) ->
           e <> Print (summary_line n))
  /\ (is_view (Response.response_type response) = false ->
      _display_results response
      = (print (summary_line (Data.total_results (Response.data response))) ;;
         display_result_list response 0 (Data.results (Response.data response)))
      /\ exists tr o,
           _display_results response
           = (Print (summary_line (Data.total_results (Response.data response))) :: tr,
              o)).
Proof.
  split; [apply is_view_spec |]. split; intros Hview.
  - assert (Heq : _display_results response = _display_view_results response)
      by (unfold _display_results; now rewrite Hview).
    split; [exact Heq |].
    intros e tr o n H. rewrite Heq in H.
    destruct (view_first_line _ _ _ _ H) as [wi ->].
    intros [= Hline]. exact (header_not_summary wi n Hline).
  - assert (Heq : _display_results response
                  = (print (summary_line (Data.total_results (Response.data response))) ;;
                     display_result_list response 0
                       (Data.results (Response.data response))))
      by (unfold _display_results; now rewrite Hview).
    split; [exact Heq |].
    rewrite Heq, bind_print. eexists; eexists; reflexivity.
Qed.

(** A view response goes to the detail renderer, a word search to the list
    renderer. *)
Lemma variant_branching_samples :
  _display_results (sample_view [Result.ViewEntry sample_word_info])
  = _display_view_results (sample_view [Result.ViewEntry sample_word_info])
  /\ exists tr o,
       _display_results sample_search = (Print (summary_line 1) :: tr, o).
Proof.
  split.
  - exact (proj1 (proj1 (proj2 (variant_branching
                                  (sample_view [Result.ViewEntry sample_word_info])))
                    eq_refl)).
  - exact (proj2 (proj2 (proj2 (variant_branching sample_search)) eq_refl)).
Defined.

(** C8 (a view needs a result).  For a response of type ['view'] or
    ['scraped_view'] whose [results] is empty, reading [data.results[0]]
    raises [IndexError] and nothing has been printed. *)
Theorem view_requires_result (response : Response.t) :
  is_view (Response.response_type response) = true ->
  Data.results (Response.data response) = [] ->
  _display_results response = ([], Raise IndexError).
Proof.
  intros Hview Hres. unfold _display_results, _display_view_results.
  rewrite Hview, Hres. reflexivity.
Qed.

Lemma view_requires_result_sample :
  _display_results (sample_view []) = ([], Raise IndexError).
Proof.
  exact (view_requires_result (sample_view []) eq_refl eq_refl).
Defined.

(** * Further properties of the loop of Example 1 *)

Lemma printed_app (tr1 tr2 : list event) :
  printed (tr1 ++ tr2)%list = (printed tr1 ++ printed tr2)%list.
Proof.
  induction tr1 as [| [s | q p pp] tr1 IH]; simpl; [reflexivity | now rewrite IH | exact IH].
Qed.

Lemma while_pages_in_order (search : krdict_search) (fuel : nat) :
  forall st,
    exists m, (m <= fuel)%nat
      /\ requested_pages (fst (while Pagination.has_next (Pagination.body search) fuel st))
         = pages_from (Pagination.page st) m.
Proof.
  induction fuel as [| fuel IH]; intros st.
  - exists 0%nat. split; [lia |]. simpl. now destruct (Pagination.has_next st).
  - destruct (Pagination.has_next st) eqn:Hn.
    + rewrite while_pass by exact Hn.
      destruct (search Pagination.query (Pagination.page st) 20) as [e | r] eqn:Hs.
      * rewrite (body_raises _ _ _ Hs). exists 1%nat. split; [lia | reflexivity].
      * rewrite (body_returns _ _ _ Hs), bind_return.
        set (st1 := {| Pagination.page := Pagination.page st + 1 |}).
        destruct (IH st1) as (m & Hm & Hreq).
        exists (S m). split; [lia |].
        cbn [fst]. rewrite requested_pages_app, Hreq. reflexivity.
    + rewrite while_exit by exact Hn. exists 0%nat. split; [lia | reflexivity].
Qed.

(** Whatever the client answers or raises, and however the run ends, the
    pages asked for are 1, 2, 3, ... in this order, each once, and there are
    no more requests than passes allowed. *)
Theorem pagination_pages_in_order (search : krdict_search) (fuel : nat) :
  exists m, (m <= fuel)%nat
    /\ requested_pages (fst (Pagination.loop search fuel)) = pages_from 1 m
    /\ requested_pages (fst (pagination search fuel)) = pages_from 1 m.
Proof.
  destruct (while_pages_in_order search fuel Pagination.init) as (m & Hm & Hreq).
  exists m. split; [exact Hm |]. split; [exact Hreq |].
  unfold pagination. fold (Pagination.loop search fuel) in Hreq.
  destruct (Pagination.loop search fuel) as [tr [st | e | ]]; cbn [fst] in *;
    try exact Hreq.
  rewrite bind_return. cbn [fst]. rewrite requested_pages_app, Hreq.
  cbn. now rewrite app_nil_r.
Qed.

Lemma while_stops_on_last (search : krdict_search) (fuel : nat) :
  forall st tr st',
    Pagination.has_next st = true ->
    while Pagination.has_next (Pagination.body search) fuel st = (tr, Return st') ->
    exists m r,
      requested_pages tr = pages_from (Pagination.page st) (S m)
      /\ (forall i, (i < m)%nat ->
            exists r', search Pagination.query (Pagination.page st + Z.of_nat i) 20
                       = inr r'
                       /\ continues r' = true)
      /\ search Pagination.query (Pagination.page st + Z.of_nat m) 20 = inr r
      /\ continues r = false
      /\ Pagination.total_results st' = Data.total_results (Response.data r)
      /\ Pagination.page st' = (Pagination.page st + Z.of_nat m + 1)%Z.
Proof.
  induction fuel as [| fuel IH]; intros st tr st' Hn H.
  - simpl in H. rewrite Hn in H. discriminate.
  - rewrite while_pass in H by exact Hn.
    destruct (search Pagination.query (Pagination.page st) 20) as [e | r] eqn:Hs.
    + rewrite (body_raises _ _ _ Hs) in H. discriminate.
    + rewrite (body_returns _ _ _ Hs), bind_return in H.
      fold (continues r) in H.
      set (st1 := {| Pagination.page := Pagination.page st + 1 |}) in H.
      destruct (continues r) eqn:Hc.
      * destruct (while Pagination.has_next (Pagination.body search) fuel st1)
          as [tr1 o1] eqn:Hw.
        cbn [fst snd] in H. injection H as <- ->.
        destruct (IH st1 tr1 st' eq_refl Hw)
          as (m & r' & Hreq & Hbefore & Hs' & Hc' & Htot & Hpage).
        cbn [Pagination.page st1] in Hreq, Hbefore, Hs', Hpage.
        exists (S m), r'. repeat split.
        -- cbn. now rewrite Hreq.
        -- intros i Hi. destruct i as [| i].
           ++ exists r. split; [| exact Hc].
              rewrite <- Hs. f_equal. lia.
           ++ destruct (Hbefore i ltac:(lia)) as (ri & Hsi & Hci).
              exists ri. split; [| exact Hci].
              rewrite <- Hsi. f_equal. lia.
        -- rewrite <- Hs'. f_equal. lia.
        -- exact Hc'.
        -- exact Htot.
        -- rewrite Hpage. lia.
      * rewrite while_exit in H by reflexivity.
        cbn [ret fst snd] in H. injection H as <- <-.
        exists 0%nat, r. repeat split.
        -- intros i Hi. lia.
        -- rewrite <- Hs. f_equal. lia.
        -- exact Hc.
        -- cbn. lia.
Qed.

(** A run that returns has made at least one request, and it stops on the
    first response for which [per_page * page < total_results] fails: the
    responses to all the pages before the last one passed the test, the last
    one does not.  The total it reports is the one of that last response,
    not of an earlier page. *)
Theorem pagination_stops_on_last_response (search : krdict_search) (fuel : nat)
    (tr : list event) (st : Pagination.locals) :
  Pagination.loop search fuel = (tr, Return st) ->
  exists m r,
    requested_pages tr = pages_from 1 (S m)
    /\ (forall i, (i < m)%nat ->
          exists r', search Pagination.query (1 + Z.of_nat i) 20 = inr r'
                     /\ continues r' = true)
    /\ search Pagination.query (1 + Z.of_nat m) 20 = inr r
    /\ continues r = false
    /\ Pagination.total_results st = Data.total_results (Response.data r)
    /\ Pagination.page st = (Z.of_nat m + 2)%Z.
Proof.
  intros H.
  destruct (while_stops_on_last search fuel Pagination.init tr st eq_refl H)
    as (m & r & Hreq & Hbefore & Hs & Hc & Htot & Hpage).
  exists m, r. repeat split; try assumption.
  rewrite Hpage. cbn [Pagination.page Pagination.init]. lia.
Qed.

Lemma pagination_stops_on_last_response_45 :
  exists m r,
    requested_pages (fst (Pagination.loop client_45 3)) = pages_from 1 (S m)
    /\ (forall i, (i < m)%nat ->
          exists r', client_45 Pagination.query (1 + Z.of_nat i) 20 = inr r'
                     /\ continues r' = true)
    /\ client_45 Pagination.query (1 + Z.of_nat m) 20 = inr r
    /\ continues r = false
    /\ Pagination.total_results
         (match snd (Pagination.loop client_45 3) with
          | Return st => st
          | _ => Pagination.init
          end)
       = Data.total_results (Response.data r)
    /\ Pagination.page
         (match snd (Pagination.loop client_45 3) with
          | Return st => st
          | _ => Pagination.init
          end)
       = (Z.of_nat m + 2)%Z.
Proof.
  exact (pagination_stops_on_last_response client_45 3
           (fst (Pagination.loop client_45 3))
           (match snd (Pagination.loop client_45 3) with
            | Return st => st
            | _ => Pagination.init
            end)
           eq_refl).
Defined.

Lemma while_never_returns (search : krdict_search) :
  (forall k, (1 <= k)%Z ->
     exists r, search Pagination.query k 20 = inr r /\ continues r = true) ->
  forall fuel st,
    Pagination.has_next st = true -> (1 <= Pagination.page st)%Z ->
    exists tr,
      while Pagination.has_next (Pagination.body search) fuel st = (tr, OutOfFuel)
      /\ requested_pages tr = pages_from (Pagination.page st) fuel.
Proof.
  intros Hall. induction fuel as [| fuel IH]; intros st Hn Hp.
  - exists []. simpl. now rewrite Hn.
  - destruct (Hall (Pagination.page st) Hp) as (r & Hs & Hc).
    rewrite while_pass by exact Hn.
    rewrite (body_returns _ _ _ Hs), bind_return.
    fold (continues r). rewrite Hc.
    set (st1 := {| Pagination.page := Pagination.page st + 1 |}).
    destruct (IH st1 eq_refl ltac:(cbn; lia)) as (tr1 & Hw & Hreq).
    rewrite Hw. cbn [fst snd]. eexists. split; [reflexivity |].
    cbn. now rewrite Hreq.
Qed.

(** The loop has no bound of its own: against a client whose every response
    says that more is to come, it goes on asking for the next page for as
    long as it is allowed to run, and [pagination] never prints its final
    line. *)
Theorem pagination_never_returns (search : krdict_search) (fuel : nat) :
  (forall k, (1 <= k)%Z ->
     exists r, search Pagination.query k 20 = inr r /\ continues r = true) ->
  exists tr,
    pagination search fuel = (tr, OutOfFuel)
    /\ requested_pages tr = pages_from 1 fuel.
Proof.
  intros Hall.
  destruct (while_never_returns search Hall fuel Pagination.init eq_refl ltac:(cbn; lia))
    as (tr & Hw & Hreq).
  exists tr. split; [| exact Hreq].
  unfold pagination, Pagination.loop. now rewrite Hw.
Qed.

Lemma pagination_never_returns_stuck :
  exists tr,
    pagination client_stuck 4 = (tr, OutOfFuel)
    /\ requested_pages tr = [1; 2; 3; 4]%Z.
Proof.
  apply (pagination_never_returns client_stuck 4).
  intros k _. exists (response_echo_10 1). split; reflexivity.
Defined.

Lemma while_raises_midway (search : krdict_search) (e : exn) (j : nat) :
  forall st fuel,
    Pagination.has_next st = true ->
    (forall i, (i < j)%nat ->
       exists r, search Pagination.query (Pagination.page st + Z.of_nat i) 20 = inr r
                 /\ continues r = true) ->
    search Pagination.query (Pagination.page st + Z.of_nat j) 20 = inl e ->
    (j < fuel)%nat ->
    exists tr,
      while Pagination.has_next (Pagination.body search) fuel st = (tr, Raise e)
      /\ requested_pages tr = pages_from (Pagination.page st) (S j)
      /\ List.length (printed tr) = j.
Proof.
  induction j as [| j IH]; intros st fuel Hn Hok Hbad Hfuel;
    (destruct fuel as [| fuel]; [lia |]); rewrite while_pass by exact Hn.
  - replace (Pagination.page st + Z.of_nat 0)%Z with (Pagination.page st) in Hbad by lia.
    rewrite (body_raises _ _ _ Hbad). eexists. split; [reflexivity |]. split; reflexivity.
  - destruct (Hok 0%nat ltac:(lia)) as (r & Hs & Hc).
    replace (Pagination.page st + Z.of_nat 0)%Z with (Pagination.page st) in Hs by lia.
    rewrite (body_returns _ _ _ Hs), bind_return.
    fold (continues r). rewrite Hc.
    set (st1 := {| Pagination.page := Pagination.page st + 1 |}).
    destruct (IH st1 fuel eq_refl) as (tr1 & Hw & Hreq & Hprinted).
    + intros i Hi. destruct (Hok (S i) ltac:(lia)) as (r' & Hs' & Hc').
      exists r'. split; [| exact Hc'].
      rewrite <- Hs'. cbn [Pagination.page st1]. f_equal. lia.
    + rewrite <- Hbad. cbn [Pagination.page st1]. f_equal. lia.
    + lia.
    + rewrite Hw. cbn [fst snd]. eexists. split; [reflexivity |]. split.
      * cbn. now rewrite Hreq.
      * cbn. now rewrite Hprinted.
Qed.

(** When the pages [1 .. j] are served and say that more is to come, and the
    request for page [j + 1] raises, [pagination] ends with that exception.
    It has asked for the pages [1 .. j + 1] once each, has printed the [j]
    progress lines of the pages it got, and does not print the final line:
    what was collected so far is lost. *)
Theorem pagination_raises_midway (search : krdict_search) (e : exn) (j fuel : nat) :
  (forall i, (i < j)%nat ->
     exists r, search Pagination.query (1 + Z.of_nat i) 20 = inr r
               /\ continues r = true) ->
  search Pagination.query (1 + Z.of_nat j) 20 = inl e ->
  (j < fuel)%nat ->
  exists tr,
    pagination search fuel = (tr, Raise e)
    /\ requested_pages tr = pages_from 1 (S j)
    /\ List.length (printed tr) = j.
Proof.
  intros Hok Hbad Hfuel.
  destruct (while_raises_midway search e j Pagination.init fuel eq_refl Hok Hbad Hfuel)
    as (tr & Hw & Hreq & Hprinted).
  exists tr. split; [| split; assumption].
  unfold pagination, Pagination.loop. now rewrite Hw.
Qed.

Lemma pagination_raises_midway_page_2 :
  exists tr,
    pagination (client_failing_at 2 "service unavailable") 5
    = (tr, Raise (KRDictException "service unavailable"))
    /\ requested_pages tr = [1; 2]%Z
    /\ List.length (printed tr) = 1%nat.
Proof.
  apply (pagination_raises_midway (client_failing_at 2 "service unavailable")
           (KRDictException "service unavailable") 1 5).
  - intros i Hi. assert (i = 0%nat) as -> by lia.
    eexists. split; reflexivity.
  - reflexivity.
  - lia.
Defined.

Lemma fetches_needed_multiple (m P : Z) :
  (0 < P)%Z -> (1 <= m)%Z -> fetches_needed (m * P) P = m.
Proof.
  intros HP Hm. unfold fetches_needed, ceil_div.
  replace (m * P + P - 1)%Z with (m * P + (P - 1))%Z by lia.
  rewrite Z.div_add_l by lia. rewrite Z.div_small by lia. lia.
Qed.

Lemma paged_client_loop (db : list Result.t) (P : Z) (fuel : nat) :
  (0 < P)%Z ->
  (Z.to_nat (fetches_needed (len db) P) <= fuel)%nat ->
  exists tr st,
    Pagination.loop (paged_client db P) fuel = (tr, Return st)
    /\ requested_pages tr = pages_from 1 (Z.to_nat (fetches_needed (len db) P))
    /\ Pagination.results st = db.
Proof.
  intros HP Hfuel.
  assert (HT : (0 <= len db)%Z) by (unfold len; lia).
  destruct (fetches_needed_bounds (len db) P HT HP) as (Hn & Hlast & Hmore).
  destruct (pagination_loop_total (paged_client db P) (len db) P fuel HT HP)
    as (tr & st & Hw & Hreq & Htot); [| exact Hfuel |].
  - intros k Hk. apply paged_client_serves; [lia | lia |].
    destruct (Z.eq_dec k 1) as [-> | Hne]; [lia |].
    specialize (Hmore (k - 1)%Z ltac:(lia)). lia.
  - exists tr, st. repeat split; [exact Hw | exact Hreq |].
    destruct (while_collects _ _ _ _ _ Hw) as [_ Hres].
    rewrite Hres, Hreq. simpl.
    rewrite paged_client_pages by lia.
    replace (Z.to_nat (P * (1 - 1))) with 0%nat by lia.
    simpl skipn. apply firstn_all2.
    rewrite <- Z2Nat.inj_mul by lia.
    apply Nat2Z.inj_le. rewrite Z2Nat.id by nia.
    change (Z.of_nat (List.length db)) with (len db). lia.
Qed.

(** When the number of results is an exact multiple [m * P] of the page size
    ([m >= 1]), the loop stops after page [m]: the test [P * m < m * P]
    fails, so no further, empty page is asked for, and everything has been
    collected. *)
Theorem pagination_exact_multiple (db : list Result.t) (P m : Z) (fuel : nat) :
  (0 < P)%Z -> (1 <= m)%Z -> len db = (m * P)%Z ->
  (Z.to_nat m <= fuel)%nat ->
  exists tr st,
    Pagination.loop (paged_client db P) fuel = (tr, Return st)
    /\ requested_pages tr = pages_from 1 (Z.to_nat m)
    /\ Pagination.results st = db.
Proof.
  intros HP Hm Hlen Hfuel.
  pose proof (fetches_needed_multiple m P HP Hm) as Hf.
  rewrite <- Hlen in Hf.
  destruct (paged_client_loop db P fuel HP) as (tr & st & Hw & Hreq & Hres).
  - now rewrite Hf.
  - exists tr, st. rewrite Hf in Hreq. repeat split; assumption.
Qed.

Lemma pagination_exact_multiple_40_by_20 :
  exists tr st,
    Pagination.loop (paged_client (repeat sample_entry 40) 20) 2 = (tr, Return st)
    /\ requested_pages tr = [1; 2]%Z
    /\ Pagination.results st = repeat sample_entry 40.
Proof.
  apply (pagination_exact_multiple (repeat sample_entry 40) 20 2 2).
  - lia.
  - lia.
  - reflexivity.
  - vm_compute. lia.
Defined.

(** * Further properties of the list renderer *)

Lemma first_dfn_word (response : Response.t) (result : Result.t) (d : Dfn.t) :
  first_dfn response result = inr d -> exists w, Result.word result = inr w.
Proof.
  unfold first_dfn.
  destruct (Response.is_DefinitionResponse response), result; simpl;
    try discriminate; intros _; eexists; reflexivity.
Qed.

Lemma display_result_lines (response : Response.t) (idx : nat) (result : Result.t) :
  entry_ok response result = true ->
  display_result response idx result
  = (map Print (result_lines response idx result), Return tt).
Proof.
  unfold entry_ok, display_result, result_lines.
  destruct (first_dfn response result) as [e | d] eqn:Hd; [discriminate |].
  intros Hwords. destruct (first_dfn_word _ _ _ Hd) as [w Hw]. rewrite Hw.
  rewrite !bind_lift_inr, bind_print, display_translations_lines by exact Hwords.
  reflexivity.
Qed.

Lemma display_result_list_lines (response : Response.t) (l : list Result.t) :
  forall idx,
    forallb (entry_ok response) l = true ->
    display_result_list response idx l
    = (map Print (result_list_lines response idx l), Return tt).
Proof.
  induction l as [| r l IH]; intros idx H; [reflexivity |].
  cbn [forallb] in H. apply andb_prop in H as [Hr Hl].
  cbn [display_result_list result_list_lines].
  rewrite (display_result_lines _ _ _ Hr), bind_return, IH by exact Hl.
  cbn [fst snd]. now rewrite map_app.
Qed.

(** A search response all of whose entries have a first definition, with
    translations that carry a word, is rendered without an exception: the
    summary line, then for each entry in order its numbered line and its
    translation lines.  Nothing is truncated: there is one entry line per
    result. *)
Theorem list_renderer_output (response : Response.t) :
  is_view (Response.response_type response) = false ->
  forallb (entry_ok response) (Data.results (Response.data response)) = true ->
  _display_results response
  = (map Print
       (summary_line (Data.total_results (Response.data response))
        :: result_list_lines response 0 (Data.results (Response.data response))),
     Return tt)
  /\ (List.length (Data.results (Response.data response))
      <= List.length (result_list_lines response 0
                        (Data.results (Response.data response))))%nat.
Proof.
  intros Hview Hok. split.
  - unfold _display_results. rewrite Hview.
    rewrite bind_print, display_result_list_lines by exact Hok. reflexivity.
  - revert Hok. generalize 0%nat.
    induction (Data.results (Response.data response)) as [| r l IH]; intros idx H;
      [apply Nat.le_refl |].
    cbn [forallb] in H. apply andb_prop in H as [Hr Hl].
    cbn [result_list_lines List.length]. rewrite length_app.
    specialize (IH (S idx) Hl).
    unfold entry_ok in Hr. unfold result_lines.
    destruct (first_dfn response r) as [e | d] eqn:Hd; [discriminate |].
    destruct (first_dfn_word _ _ _ Hd) as [w ->]. cbn [List.length]. lia.
Qed.

Lemma list_renderer_output_sample :
  _display_results sample_search
  = (map Print
       [summary_line 1;
        "1. 나무 (木): " ++ Dfn.definition sample_dfn;
        "   tree: A plant with a hard stem."],
     Return tt)
  /\ (1 <= 2)%nat.
Proof.
  exact (list_renderer_output sample_search eq_refl eq_refl).
Defined.

(** An entry whose list [definitions] is empty makes the list renderer raise
    [IndexError] at [result.definitions[0]].  The summary line and the
    results before it have been printed by then; the entry itself and the
    results after it are not. *)
Theorem list_renderer_empty_definitions (response : Response.t)
    (before after : list Result.t) (word : string) (origin : option string)
    (tr : list event) :
  is_view (Response.response_type response) = false ->
  Response.is_DefinitionResponse response = false ->
  Data.results (Response.data response)
  = (before ++ Result.WordEntry word origin [] :: after)%list ->
  display_result_list response 0 before = (tr, Return tt) ->
  _display_results response
  = (Print (summary_line (Data.total_results (Response.data response))) :: tr,
     Raise IndexError).
Proof.
  intros Hview Hclass Hres Hbefore.
  unfold _display_results. rewrite Hview, Hres, display_result_list_app, Hbefore.
  rewrite bind_print, bind_return. cbn [display_result_list].
  unfold display_result, first_dfn. rewrite Hclass.
  cbn [Result.definitions index0]. rewrite !bind_lift_inl.
  cbn [fst snd]. now rewrite app_nil_r.
Qed.

Lemma list_renderer_empty_definitions_sample :
  _display_results search_with_empty_definitions
  = ([Print "Total Results: 2";
      Print ("1. 나무 (木): " ++ Dfn.definition sample_dfn);
      Print "   tree: A plant with a hard stem."],
     Raise IndexError).
Proof.
  exact (list_renderer_empty_definitions search_with_empty_definitions
           [Result.WordEntry "나무" (Some "木") [sample_dfn]] [] "나무" None
           _ eq_refl eq_refl eq_refl eq_refl).
Defined.

Lemma display_translations_stops (before after : list Translation.t)
    (t : Translation.t) :
  forallb has_word before = true ->
  Translation.word t = None ->
  display_translations (before ++ t :: after)%list
  = (map Print (map translation_text before), Raise (AttributeError "word")).
Proof.
  intros Hbefore Ht. induction before as [| x before IH].
  - cbn [app display_translations]. unfold translation_line. rewrite Ht.
    now rewrite bind_lift_inl.
  - cbn [forallb] in Hbefore. apply andb_prop in Hbefore as [Hx Hrest].
    cbn [app display_translations map]. unfold translation_text at 1.
    unfold has_word in Hx. unfold translation_line at 1 2.
    destruct (Translation.word x) as [w |]; [| discriminate].
    rewrite bind_lift_inr, bind_print, IH by exact Hrest. reflexivity.
Qed.

(** The list renderer reads [translation.word] without testing that it is
    there.  A translation of the first definition that has no word makes it
    raise: by then the line of the result and the lines of the translations
    before that one have been printed, and the translations after it are
    not. *)
Theorem list_renderer_translation_without_word (response : Response.t) (idx : nat)
    (result : Result.t) (d : Dfn.t) (w : string)
    (before after : list Translation.t) (t : Translation.t) :
  first_dfn response result = inr d ->
  Result.word result = inr w ->
  Dfn.translations d = (before ++ t :: after)%list ->
  forallb has_word before = true ->
  Translation.word t = None ->
  display_result response idx result
  = (map Print
       ((str (Z.of_nat idx + 1) ++ ". " ++ w ++ origin_info result ++ ": "
         ++ Dfn.definition d)%string
        :: map translation_text before),
     Raise (AttributeError "word")).
Proof.
  intros Hd Hw Htr Hbefore Ht. unfold display_result.
  rewrite Hd, Hw, !bind_lift_inr, bind_print, Htr.
  now rewrite (display_translations_stops before after t Hbefore Ht).
Qed.

Lemma list_renderer_translation_without_word_sample :
  display_result sample_search 0
    (Result.WordEntry "나무" None [dfn_translation_without_word])
  = (map Print
       [("1. 나무: " ++ Dfn.definition dfn_translation_without_word)%string;
        "   tree: A plant with a hard stem."],
     Raise (AttributeError "word")).
Proof.
  exact (list_renderer_translation_without_word sample_search 0
           (Result.WordEntry "나무" None [dfn_translation_without_word])
           dfn_translation_without_word "나무"
           [ {| Translation.word := Some "tree";
                Translation.definition := "A plant with a hard stem." |} ]
           [ {| Translation.word := Some "arbre";
                Translation.definition := "Plante ligneuse." |} ]
           {| Translation.word := None; Translation.definition := "木とも。" |}
           eq_refl eq_refl eq_refl eq_refl eq_refl).
Defined.

(** * Further properties of the detail renderer *)

Lemma display_definition_lines (idx : nat) (dfn : Dfn.t) :
  dfn_ok dfn = true ->
  display_definition idx dfn = (map Print (definition_lines idx dfn), Return tt).
Proof.
  intros Hok. unfold display_definition, definition_lines.
  rewrite (display_examples_from _ 0) by lia.
  rewrite (display_multimedia_from _ 0 (Nat.le_0_l 5) Hok).
  unfold print, bind. cbn [Nat.sub map]. rewrite !map_app. reflexivity.
Qed.

Lemma display_definitions_lines (l : list Dfn.t) :
  forall idx,
    forallb dfn_ok l = true ->
    display_definitions idx l = (map Print (definition_list_lines idx l), Return tt).
Proof.
  induction l as [| d l IH]; intros idx H; [reflexivity |].
  cbn [forallb] in H. apply andb_prop in H as [Hd Hl].
  cbn [display_definitions definition_list_lines].
  rewrite (display_definition_lines _ _ Hd), bind_return, IH by exact Hl.
  cbn [fst snd]. now rewrite map_app.
Qed.

(** The detail renderer looks at the first result only.  When the multimedia
    entries it would print all render, it returns without an exception,
    having printed the header line, the url of the response, and for each
    definition in order its numbered text, its examples and its multimedia
    entries (five of each at most, then a marker). *)
Theorem view_renderer_output (response : Response.t) (wi : WordInfo.t)
    (rest : list Result.t) :
  Data.results (Response.data response) = Result.ViewEntry wi :: rest ->
  forallb dfn_ok (WordInfo.definition_info wi) = true ->
  _display_view_results response
  = (map Print
       (header_line wi
        :: Data.url (Response.data response)
        :: definition_list_lines 0 (WordInfo.definition_info wi)),
     Return tt).
Proof.
  intros Hres Hok. unfold _display_view_results. rewrite Hres.
  cbn [index0]. rewrite bind_lift_inr. cbn beta.
  cbn [Result.word_info]. rewrite bind_lift_inr. cbn beta.
  rewrite display_definitions_lines by exact Hok. reflexivity.
Qed.

Lemma view_renderer_output_sample :
  _display_view_results (sample_view [Result.ViewEntry sample_word_info])
  = (map Print
       ("나무 「명사」"
        :: "https://krdict.korean.go.kr/dicSearch/SearchView?ParaWordNo=32750"
        :: definition_list_lines 0 [sample_dfn]),
     Return tt).
Proof.
  exact (view_renderer_output (sample_view [Result.ViewEntry sample_word_info])
           sample_word_info [] eq_refl eq_refl).
Defined.

Lemma bind_trace_le {A B} (c : io A) (k : A -> io B) (n : nat) :
  (forall a, (List.length (fst (k a)) <= n)%nat) ->
  (List.length (fst (bind c k)) <= List.length (fst c) + n)%nat.
Proof.
  intros H. destruct c as [tr [a | e | ]]; [| cbn [bind fst]; lia ..].
  rewrite bind_return. cbn [fst]. rewrite length_app. specialize (H a). lia.
Qed.

Lemma display_examples_bound (l : list Example.t) (i : nat) :
  (i <= 5)%nat -> (List.length (fst (display_examples i l)) <= 6 - i)%nat.
Proof.
  intros Hi. rewrite display_examples_from by exact Hi. cbn [fst].
  rewrite length_map, length_app, length_map, length_firstn.
  destruct (5 - i <? List.length l)%nat; cbn [List.length]; lia.
Qed.

Lemma display_multimedia_bound (l : list Multimedia.t) :
  forall i, (i <= 5)%nat -> (List.length (fst (display_multimedia i l)) <= 6 - i)%nat.
Proof.
  induction l as [| x l IH]; intros i Hi; cbn [display_multimedia].
  - cbn. lia.
  - destruct (Nat.eqb_spec i 5) as [-> | Hne]; [cbn; lia |].
    destruct (multimedia_line x) as [e | line].
    + rewrite bind_lift_inl. cbn. lia.
    + rewrite bind_lift_inr, bind_print. cbn [fst List.length].
      specialize (IH (S i) ltac:(lia)). lia.
Qed.

Lemma display_definition_bound (idx : nat) (dfn : Dfn.t) :
  (List.length (fst (display_definition idx dfn)) <= 13)%nat.
Proof.
  unfold display_definition. rewrite bind_print. cbn [fst List.length].
  pose proof (bind_trace_le (display_examples 0 (Dfn.example_info dfn))
                (fun _ => display_multimedia 0 (Dfn.multimedia_info dfn)) 6
                (fun _ => display_multimedia_bound _ 0 (Nat.le_0_l 5))) as H.
  pose proof (display_examples_bound (Dfn.example_info dfn) 0 (Nat.le_0_l 5)).
  lia.
Qed.

Lemma display_definitions_bound (l : list Dfn.t) :
  forall idx, (List.length (fst (display_definitions idx l)) <= 13 * List.length l)%nat.
Proof.
  induction l as [| d l IH]; intros idx; cbn [display_definitions List.length].
  - cbn. lia.
  - pose proof (bind_trace_le (display_definition idx d)
                  (fun _ => display_definitions (S idx) l) (13 * List.length l)
                  (fun _ => IH (S idx))) as H.
    pose proof (display_definition_bound idx d). lia.
Qed.

(** The output of the detail renderer is bounded by the number of
    definitions alone: at most 2 lines and 13 per definition (its text, five
    examples and a marker, five multimedia entries and a marker), however
    many examples and multimedia entries there are and whether or not the
    rendering ends with an exception. *)
Theorem view_renderer_bounded (response : Response.t) :
  (List.length (fst (_display_view_results response))
   <= match Data.results (Response.data response) with
      | Result.ViewEntry wi :: _ => 2 + 13 * List.length (WordInfo.definition_info wi)
      | _ => 0
      end)%nat.
Proof.
  unfold _display_view_results.
  destruct (Data.results (Response.data response)) as [| [w o ds | w o d | wi] rest];
    cbn [index0]; rewrite ?bind_lift_inl, ?bind_lift_inr; cbn beta;
    cbn [Result.word_info]; rewrite ?bind_lift_inl, ?bind_lift_inr; cbn beta;
    try (cbn; lia).
  rewrite !bind_print. cbn [fst List.length].
  pose proof (display_definitions_bound (WordInfo.definition_info wi) 0). lia.
Qed.

Lemma truthy_append (a b : string) : truthy (a ++ b) = truthy a || truthy b.
Proof. destruct a; reflexivity. Qed.

Lemma fold_left_append {A} (f : A -> string) (l : list A) :
  forall acc,
    fold_left (fun x y => x ++ f y) l acc = acc ++ join EmptyString (map f l).
Proof.
  induction l as [| a l IH]; intros acc.
  - simpl. now rewrite append_nil_r.
  - cbn [fold_left map]. now rewrite IH, join_empty_cons, append_assoc.
Qed.

Lemma truthy_join {A} (f : A -> string) (l : list A) :
  truthy (join EmptyString (map f l)) = existsb (fun y => truthy (f y)) l.
Proof.
  induction l as [| a l IH]; [reflexivity |].
  cbn [map existsb]. now rewrite join_empty_cons, truthy_append, IH.
Qed.

(** The origin shown in the header is the [original_language] texts of all
    entries of [original_language_info], in order and with nothing between
    them; the parenthesized part is there exactly when one of these texts is
    not empty. *)
Theorem header_origin (wi : WordInfo.t) :
  let langs := map OriginalLanguage.original_language
                   (WordInfo.original_language_info wi) in
  origin_of wi = join EmptyString langs
  /\ header_line wi
     = WordInfo.word wi ++ " 「" ++ WordInfo.part_of_speech wi ++ "」"
       ++ (if existsb truthy langs
           then " (" ++ join EmptyString langs ++ ")" else EmptyString)
       ++ pronunciation_segment (pronunciation_of wi).
Proof.
  intros langs.
  assert (Horigin : origin_of wi = join EmptyString langs)
    by (unfold origin_of; now rewrite fold_left_append).
  split; [exact Horigin |].
  unfold header_line. rewrite Horigin. unfold langs. rewrite truthy_join.
  assert (Hmap : forall l : list OriginalLanguage.t,
             existsb truthy (map OriginalLanguage.original_language l)
             = existsb (fun y => truthy (OriginalLanguage.original_language y)) l)
    by (induction l as [| a l IH]; simpl; congruence).
  now rewrite Hmap.
Qed.

(** * Further properties of the driver *)

Lemma run_example_list_returns (funcs : list example_func) :
  forall idx,
    forallb returns funcs = true ->
    run_example_list idx funcs = (run_trace idx funcs, Return tt).
Proof.
  induction funcs as [| [doc [tr o]] funcs IH]; intros idx H; [reflexivity |].
  cbn [forallb] in H. apply andb_prop in H as [Hf Hrest].
  unfold returns in Hf. cbn [snd] in Hf.
  destruct o as [[] | e | ]; try discriminate.
  cbn [run_example_list run_trace]. fold (banner idx).
  rewrite !bind_print, bind_return, IH by exact Hrest.
  cbn [fst snd app]. reflexivity.
Qed.

(** When every example returns, [_run_examples] runs them all in order: for
    the example at position [idx] the banner with the number [idx + 1], its
    docstring, what the example does, and an empty line; after the last one
    the closing rule.  [__main__] then ends normally. *)
Theorem run_examples_all_return (funcs : list example_func) :
  forallb returns funcs = true ->
  _run_examples funcs = ((run_trace 0 funcs ++ [Print pad_line])%list, Return tt)
  /\ main funcs = ((run_trace 0 funcs ++ [Print pad_line])%list, Finished).
Proof.
  intros H.
  assert (Hrun : _run_examples funcs
                 = ((run_trace 0 funcs ++ [Print pad_line])%list, Return tt)).
  { unfold _run_examples. rewrite run_example_list_returns by exact H.
    now rewrite bind_return. }
  split; [exact Hrun |]. unfold main, run_main. now rewrite Hrun.
Qed.

Lemma run_examples_all_return_sample :
  _run_examples [quiet_example; quiet_example]
  = ([Print (banner 0); Print "Prints one line."; Print "done"; Print EmptyString;
      Print (banner 1); Print "Prints one line."; Print "done"; Print EmptyString;
      Print pad_line],
     Return tt)
  /\ main [quiet_example; quiet_example]
     = ([Print (banner 0); Print "Prints one line."; Print "done"; Print EmptyString;
         Print (banner 1); Print "Prints one line."; Print "done"; Print EmptyString;
         Print pad_line],
        Finished).
Proof.
  exact (run_examples_all_return [quiet_example; quiet_example] eq_refl).
Defined.

Lemma run_example_list_raises (before after : list example_func) (doc : string)
    (tr : list event) (e : exn) :
  forall idx,
    forallb returns before = true ->
    run_example_list idx (before ++ (doc, (tr, Raise e)) :: after)%list
    = ((run_trace idx before
        ++ [Print (banner (idx + List.length before)); Print doc] ++ tr)%list,
       Raise e).
Proof.
  induction before as [| [doc' [tr' o']] before IH]; intros idx H.
  - cbn [app run_example_list run_trace List.length]. fold (banner idx).
    rewrite Nat.add_0_r, !bind_print. reflexivity.
  - cbn [forallb] in H. apply andb_prop in H as [Hf Hrest].
    unfold returns in Hf. cbn [snd] in Hf.
    destruct o' as [[] | e' | ]; try discriminate.
    cbn [app run_example_list run_trace List.length]. fold (banner idx).
    rewrite !bind_print, bind_return, IH by exact Hrest.
    cbn [fst snd app]. rewrite Nat.add_succ_r, <- !app_assoc. reflexivity.
Qed.

(** The first example that raises ends the whole run with its exception:
    its banner, its docstring and what it did before raising are the last
    things printed.  The empty line after it, the examples after it and the
    closing rule are left out. *)
Theorem run_examples_stops_at_first_raise (before after : list example_func)
    (doc : string) (tr : list event) (e : exn) :
  forallb returns before = true ->
  _run_examples (before ++ (doc, (tr, Raise e)) :: after)%list
  = ((run_trace 0 before
      ++ [Print (banner (List.length before)); Print doc] ++ tr)%list,
     Raise e).
Proof.
  intros H. unfold _run_examples.
  now rewrite (run_example_list_raises before after doc tr e 0 H).
Qed.

Lemma run_examples_stops_at_first_raise_sample :
  _run_examples [quiet_example; failing_example; quiet_example]
  = ([Print (banner 0); Print "Prints one line."; Print "done"; Print EmptyString;
      Print (banner 1); Print (fst failing_example);
      Search Pagination.query 1 20],
     Raise (KRDictException "bad key")).
Proof.
  exact (run_examples_stops_at_first_raise [quiet_example] [quiet_example]
           (fst failing_example) [Search Pagination.query 1 20]
           (KRDictException "bad key") eq_refl).
Defined.

(** [__main__] prints what [_run_examples] prints and never reaches
    [sys.exit]: a run in which an example raises, whatever the class of the
    exception, ends with the [NameError] of the [except] clause, the
    exception of the example being its context. *)
Theorem main_never_exits_with_message (funcs : list example_func) :
  fst (main funcs) = fst (_run_examples funcs)
  /\ snd (main funcs)
     = match snd (_run_examples funcs) with
       | Return _ => Finished
       | Raise e => Unhandled (NameError "requests") (Some e)
       | OutOfFuel => Unfinished
       end
  /\ forall message, snd (main funcs) <> SystemExit message.
Proof.
  unfold main, run_main.
  destruct (_run_examples funcs) as [tr [[] | e | ]]; cbn [fst snd];
    repeat split; intros; discriminate.
Qed.

(** * Example 9 *)

(** The url of the first translation is read before anything is printed.
    When the word of the day comes without translation urls, the example
    raises [IndexError] with no output, although the word and its definition
    were at hand, and the extended information is not looked up: the result
    is the same whatever the scraper would answer. *)
Theorem word_of_the_day_needs_translation_url (data : WordOfDay.t) (view : scraper_view)
    (translation : string) :
  wotd_translation data = inr translation ->
  WordOfDay.translation_urls data = [] ->
  word_of_the_day (inr data) view = ([], Raise IndexError).
Proof.
  intros Ht Hurls. unfold word_of_the_day.
  rewrite bind_lift_inr, Ht, bind_lift_inr, Hurls. reflexivity.
Qed.

Lemma word_of_the_day_needs_translation_url_sample :
  word_of_the_day (inr (sample_wotd [])) sample_scraper = ([], Raise IndexError).
Proof.
  exact (word_of_the_day_needs_translation_url (sample_wotd []) sample_scraper
           " (tree)" eq_refl eq_refl).
Defined.

(** After the three lines about the word of the day, printed at once, the
    entry looked up is the one with the target code of the word of the day,
    and it is rendered under the heading by the formatter.  If that lookup
    raises, the lines about the word have been printed and the heading has
    not. *)
Theorem word_of_the_day_extended_info (data : WordOfDay.t) (view : scraper_view)
    (translation : string) (u : TranslationUrl.t) (us : list TranslationUrl.t) :
  wotd_translation data = inr translation ->
  WordOfDay.translation_urls data = u :: us ->
  let text := "Word of the Day: " ++ WordOfDay.word data ++ translation
              ++ nl ++ WordOfDay.definition data ++ nl ++ TranslationUrl.url u in
  word_of_the_day (inr data) view
  = match view (WordOfDay.target_code data) with
    | inl e => ([Print text], Raise e)
    | inr response =>
        (Print text :: Print (nl ++ "Extended Info:")
         :: fst (_display_results response),
         snd (_display_results response))
    end.
Proof.
  intros Ht Hurls text. unfold word_of_the_day.
  rewrite bind_lift_inr, Ht, bind_lift_inr, Hurls. cbn [index0].
  rewrite bind_lift_inr, bind_print. fold text.
  destruct (view (WordOfDay.target_code data)) as [e | response].
  - rewrite bind_lift_inl. reflexivity.
  - rewrite bind_lift_inr, bind_print. reflexivity.
Qed.

Lemma word_of_the_day_extended_info_sample :
  word_of_the_day (inr (sample_wotd [sample_wotd_url])) sample_scraper
  = ([Print ("Word of the Day: 나무 (tree)" ++ nl
             ++ "줄기나 가지가 목질로 된 여러해살이 식물." ++ nl
             ++ TranslationUrl.url sample_wotd_url);
      Print (nl ++ "Extended Info:")],
     Raise IndexError).
Proof.
  exact (word_of_the_day_extended_info (sample_wotd [sample_wotd_url]) sample_scraper
           " (tree)" sample_wotd_url [] eq_refl eq_refl).
Defined.

(** * An exception of the client, from the request to the end of the process *)

(** C5 (exceptions of the client).  Let the pages [1 .. j] be served and say
    that more is to come, and let the request for page [j + 1] raise a
    [KRDictException].  Nothing catches it and nothing is asked again:
    [pagination] ends with this exception after asking for the pages
    [1 .. j + 1] once each, and so does [_run_examples].  (The formatter
    takes a response and makes no request of its own.)  The process then
    ends with the exit status 1, and the description of the exception is
    among what is written to the standard error stream.  It gets there
    through the traceback: the [except] clause reads the unbound name
    [requests], so the run ends with a [NameError] raised while the
    [KRDictException] was being handled, not with [sys.exit]. *)
Theorem domain_error_reaches_top_level (search : krdict_search) (msg : string)
    (j fuel : nat) (rest : list example_func) :
  (forall i, (i < j)%nat ->
     exists r, search Pagination.query (1 + Z.of_nat i) 20 = inr r
               /\ continues r = true) ->
  search Pagination.query (1 + Z.of_nat j) 20 = inl (KRDictException msg) ->
  (j < fuel)%nat ->
  let funcs := pagination_example search fuel :: rest in
  (exists tr,
     pagination search fuel = (tr, Raise (KRDictException msg))
     /\ requested_pages tr = pages_from 1 (S j)
     /\ _run_examples funcs
        = (Print (banner 0) :: Print (fst (pagination_example search fuel)) :: tr,
           Raise (KRDictException msg)))
  /\ snd (main funcs) = Unhandled (NameError "requests") (Some (KRDictException msg))
  /\ exit_status (snd (main funcs)) = Some 1%Z
  /\ In msg (stderr_descriptions (snd (main funcs))).
Proof.
  intros Hok Hbad Hfuel funcs.
  destruct (while_raises_midway search (KRDictException msg) j Pagination.init fuel
              eq_refl Hok Hbad Hfuel) as (tr & Hw & Hreq & _).
  assert (Hpag : pagination search fuel = (tr, Raise (KRDictException msg)))
    by (unfold pagination, Pagination.loop; now rewrite Hw).
  assert (Hrun : _run_examples funcs
                 = (Print (banner 0) :: Print (fst (pagination_example search fuel)) :: tr,
                    Raise (KRDictException msg))).
  { unfold funcs, _run_examples, pagination_example.
    cbn [run_example_list fst]. rewrite Hpag. reflexivity. }
  assert (Hmain : snd (main funcs)
                  = Unhandled (NameError "requests") (Some (KRDictException msg)))
    by (unfold main, run_main; rewrite Hrun; reflexivity).
  split; [exists tr; repeat split; assumption |].
  split; [exact Hmain |]. rewrite Hmain. split; [reflexivity |].
  cbn [stderr_descriptions str_exn]. left. reflexivity.
Qed.

(** The second request of Example 1 fails: the pages 1 and 2 are asked for,
    the process ends with status 1 and the description is reported. *)
Lemma domain_error_reaches_top_level_page_2 :
  (exists tr,
     pagination (client_failing_at 2 "service unavailable") 5
     = (tr, Raise (KRDictException "service unavailable"))
     /\ requested_pages tr = [1; 2]%Z
     /\ _run_examples [pagination_example (client_failing_at 2 "service unavailable") 5]
        = (Print (banner 0)
           :: Print (fst (pagination_example
                            (client_failing_at 2 "service unavailable") 5))
           :: tr,
           Raise (KRDictException "service unavailable")))
  /\ snd (main [pagination_example (client_failing_at 2 "service unavailable") 5])
     = Unhandled (NameError "requests") (Some (KRDictException "service unavailable"))
  /\ exit_status
       (snd (main [pagination_example (client_failing_at 2 "service unavailable") 5]))
     = Some 1%Z
  /\ In "service unavailable"
       (stderr_descriptions
          (snd (main [pagination_example
                        (client_failing_at 2 "service unavailable") 5]))).
Proof.
  apply (domain_error_reaches_top_level (client_failing_at 2 "service unavailable")
           "service unavailable" 1 5 []).
  - intros i Hi. assert (i = 0%nat) as -> by lia.
    eexists. split; reflexivity.
  - reflexivity.
  - lia.
Defined.
